(** * NEU calendar service: feed cache, event normaliser and query filters

    A shallow embedding of [neu_calendar_server.py].

    Conventions of the embedding
    - A Python [str] is a Rocq [string] holding its UTF-8 bytes.  [strip]
      removes the characters of [str.isspace], also those outside ASCII;
      [str.lower()], whose case tables are those of Unicode, is a
      parameter of the query tools ([py_lower]).  Substring search and
      text order on the bytes are those on the characters.  Indexing,
      [len] and [float] on text go by bytes and ASCII digits: they are
      those of Python on ASCII text.
    - A Python exception is a value of [exn]; code that may raise returns
      a [result], and a [try] is [try_except].
    - The module-level cache is passed in and out of every call, together
      with the list of effects the call performs; the clock reading, the
      current date and the answer of the network are arguments of the
      call.  Calls are taken one after the other.
    - [datetime.datetime.now()] is an integer count of microseconds.
    - A [float] is kept as the decimal number it denotes; rounding to
      binary64 is not part of the model.
    - [strftime("%Y-%m-%d")] prints the year the way CPython does with the
      GNU C library, without padding: a year below 1000 comes out on
      fewer than four digits.  [strptime] is modelled on ASCII text.
    - The lines the normaliser prints on stderr are left out.  The text
      of [get_today_events] and of [list_categories] is modelled; the
      other tools are taken up to the list they go on to render, the
      two grouped ones up to the date groups they write, with the
      [strptime] call that precedes each group. *)

From Stdlib Require Import ZArith NArith List String Ascii Bool Lia DecimalString.
From Stdlib Require Import Sorting.Permutation Sorting.Sorted.
Import ListNotations.

Open Scope string_scope.
Open Scope Z_scope.

(** ** Exceptions and results *)

Record exn := Exc { exn_class : string; exn_text : string }.

Inductive result (A : Type) : Type :=
| Ok (a : A)
| Raise (e : exn).

Arguments Ok {A} a.
Arguments Raise {A} e.

Definition bind {A B} (m : result A) (k : A -> result B) : result B :=
  match m with
  | Ok a => k a
  | Raise e => Raise e
  end.

(** [try: body except Exception as e: handler e] *)
Definition try_except {A} (body : result A) (handler : exn -> result A) : result A :=
  match body with
  | Ok a => Ok a
  | Raise e => handler e
  end.

(** The value of a guarded block: what the [try] computes, or the
    default its handler assigns. *)
Definition guarded {A} (body : result A) (default : A) : A :=
  match body with
  | Ok a => a
  | Raise _ => default
  end.

Declare Scope py_scope.
Delimit Scope py_scope with py.
Notation "x <- m ;; k" := (bind m (fun x => k))
  (at level 61, m at next level, right associativity) : py_scope.
Notation "' p <- m ;; k" := (bind m (fun x => match x with p => k end))
  (at level 61, p pattern, m at next level, right associativity) : py_scope.
Open Scope py_scope.

Definition raises {A} (m : result A) : bool :=
  match m with Ok _ => false | Raise _ => true end.

Definition AttributeError (what : string) : exn := Exc "AttributeError" what.
Definition TypeError (what : string) : exn := Exc "TypeError" what.
Definition ValueError (what : string) : exn := Exc "ValueError" what.
Definition OverflowError (what : string) : exn := Exc "OverflowError" what.
Definition UnicodeDecodeError (what : string) : exn := Exc "UnicodeDecodeError" what.

(** ** Characters and strings *)

Definition code (c : ascii) : N := N_of_ascii c.

Definition is_digit (c : ascii) : bool := (48 <=? code c)%N && (code c <=? 57)%N.

Definition digit_value (c : ascii) : N := (code c - 48)%N.

Definition between (lo hi : N) (c : ascii) : bool := (lo <=? code c)%N && (code c <=? hi)%N.

(** [str.isspace] on one ASCII character: TAB..CR, FS..US and the space. *)
Definition is_space (c : ascii) : bool :=
  ((9 <=? code c)%N && (code c <=? 13)%N)
  || ((28 <=? code c)%N && (code c <=? 32)%N).

(** [bytes.isspace] on one byte: TAB..CR and the space. *)
Definition is_space_byte (c : ascii) : bool :=
  ((9 <=? code c)%N && (code c <=? 13)%N) || (code c =? 32)%N.

Definition lower_char (c : ascii) : ascii :=
  if ((65 <=? code c)%N && (code c <=? 90)%N) then ascii_of_N (code c + 32) else c.

(** [s.lower()] on ASCII text: the letters A to Z are lowered, every
    other byte is kept.  This is also how [float] reads the words inf
    and nan. *)
Fixpoint lower (s : string) : string :=
  match s with
  | EmptyString => EmptyString
  | String c s' => String (lower_char c) (lower s')
  end.

(** The text is made of ASCII characters only. *)
Fixpoint ascii_only (s : string) : bool :=
  match s with
  | EmptyString => true
  | String c s' => (code c <? 128)%N && ascii_only s'
  end.

(** [needle in hay] for two strings *)
Fixpoint contains (needle hay : string) : bool :=
  String.prefix needle hay
  || match hay with
     | EmptyString => false
     | String _ hay' => contains needle hay'
     end.

(** [c in s] for a one-character needle *)
Fixpoint has_char (c : ascii) (s : string) : bool :=
  match s with
  | EmptyString => false
  | String d s' => Ascii.eqb c d || has_char c s'
  end.

Fixpoint lstrip_by (sp : ascii -> bool) (s : string) : string :=
  match s with
  | EmptyString => EmptyString
  | String c s' => if sp c then lstrip_by sp s' else s
  end.

Fixpoint rstrip_by (sp : ascii -> bool) (s : string) : string :=
  match s with
  | EmptyString => EmptyString
  | String c s' =>
      match rstrip_by sp s' with
      | EmptyString => if sp c then EmptyString else String c EmptyString
      | t => String c t
      end
  end.

Definition bytes (l : list N) : string :=
  fold_right (fun n s => String (ascii_of_N n) s) EmptyString l.

(** The characters [str.strip()] removes, those of [str.isspace], as
    UTF-8: U+0009..U+000D, U+001C..U+0020, U+0085, U+00A0, U+1680,
    U+2000..U+200A, U+2028, U+2029, U+202F, U+205F and U+3000. *)
Definition whitespace : list string :=
  map bytes
      [[9]; [10]; [11]; [12]; [13]; [28]; [29]; [30]; [31]; [32];
       [194; 133]; [194; 160]; [225; 154; 128];
       [226; 128; 128]; [226; 128; 129]; [226; 128; 130]; [226; 128; 131];
       [226; 128; 132]; [226; 128; 133]; [226; 128; 134]; [226; 128; 135];
       [226; 128; 136]; [226; 128; 137]; [226; 128; 138];
       [226; 128; 168]; [226; 128; 169]; [226; 128; 175];
       [226; 129; 159]; [227; 128; 128]]%N.

(** [s] without its prefix [p], when it starts with [p] *)
Fixpoint after (p s : string) : option string :=
  match p, s with
  | EmptyString, _ => Some s
  | String a p', String b s' => if Ascii.eqb a b then after p' s' else None
  | String _ _, EmptyString => None
  end.

(** [s] without the first of the characters [ws] that starts it *)
Fixpoint cut (ws : list string) (s : string) : option string :=
  match ws with
  | [] => None
  | w :: ws' =>
      match after w s with
      | Some r => Some r
      | None => cut ws' s
      end
  end.

(** [s] without the whitespace character that starts it *)
Definition cut_blank (s : string) : option string := cut whitespace s.

(** [s.lstrip()]; [fuel] bounds the number of characters removed and the
    length of the text is enough. *)
Fixpoint lstrip_from (fuel : nat) (s : string) : string :=
  match fuel with
  | O => s
  | S fuel' =>
      match cut_blank s with
      | Some r => lstrip_from fuel' r
      | None => s
      end
  end.

Definition lstrip (s : string) : string := lstrip_from (String.length s) s.

(** [s] holds whitespace only *)
Definition blank_only (s : string) : bool :=
  match lstrip s with EmptyString => true | _ => false end.

(** [s.rstrip()]: a whitespace character starts at the first byte of its
    encoding, so what is removed is the longest end of [s] that holds
    whitespace only. *)
Fixpoint rstrip (s : string) : string :=
  match s with
  | EmptyString => EmptyString
  | String c s' => if blank_only (String c s') then EmptyString else String c (rstrip s')
  end.

(** [s.strip()] *)
Definition strip (s : string) : string := rstrip (lstrip s).

(** [s.split(sep)] for a one-character separator: the pieces between
    separators, an empty string giving one empty piece. *)
Fixpoint split (sep : ascii) (s : string) : list string :=
  match s with
  | EmptyString => [EmptyString]
  | String c s' =>
      if Ascii.eqb c sep then EmptyString :: split sep s'
      else match split sep s' with
           | piece :: pieces => String c piece :: pieces
           | [] => [String c EmptyString]
           end
  end.

Definition nonempty (s : string) : bool :=
  match s with EmptyString => false | _ => true end.

Definition digit_char (n : Z) : ascii := ascii_of_N (48 + Z.to_N (n mod 10)).

Definition pad2 (n : Z) : string :=
  String (digit_char (n / 10)) (String (digit_char n) EmptyString).

Definition pad4 (n : Z) : string :=
  String (digit_char (n / 1000)) (String (digit_char (n / 100)) (pad2 n)).

(** ** Floats and [float(...)] on text *)

(** The decimal [(-1)^neg * mant * 10^exp10], kept with a mantissa that
    is not a multiple of ten (zero has exponent zero). *)
Inductive pyfloat : Type :=
| FNan
| FInf (neg : bool)
| FDec (neg : bool) (mant : N) (exp10 : Z).

Fixpoint strip10 (fuel : nat) (m : N) (e : Z) : N * Z :=
  match fuel with
  | O => (m, e)
  | S fuel' =>
      if ((0 <? m)%N && (m mod 10 =? 0)%N)
      then strip10 fuel' (m / 10)%N (e + 1)
      else (m, e)
  end.

Definition mk_dec (neg : bool) (m : N) (e : Z) : pyfloat :=
  if (m =? 0)%N then FDec neg 0 0
  else let '(m', e') := strip10 (N.size_nat m) m e in FDec neg m' e'.

Definition float_of_int (z : Z) : pyfloat := mk_dec (z <? 0) (Z.abs_N z) 0.

Definition float_is_zero (f : pyfloat) : bool :=
  match f with
  | FDec _ m _ => (m =? 0)%N
  | _ => false
  end.

(** The rest of a [digitpart] after its first digit: digits, each
    optionally preceded by one underscore.  Returns the accumulated
    value, the number of digits read and the unread text. *)
Fixpoint digit_run (s : string) (acc : N) (n : Z) : N * Z * string :=
  match s with
  | String c s' =>
      if is_digit c then digit_run s' (acc * 10 + digit_value c)%N (n + 1)
      else if Ascii.eqb c "_" then
        match s' with
        | String d s'' =>
            if is_digit d then digit_run s'' (acc * 10 + digit_value d)%N (n + 1)
            else (acc, n, s)
        | EmptyString => (acc, n, s)
        end
      else (acc, n, s)
  | EmptyString => (acc, n, s)
  end.

Definition digitpart (s : string) (acc : N) : option (N * Z * string) :=
  match s with
  | String c s' =>
      if is_digit c then Some (digit_run s' (acc * 10 + digit_value c)%N 1) else None
  | EmptyString => None
  end.

(** [number ::= [digitpart] "." digitpart | digitpart ["."]]; gives the
    digits as one integer, the count of fraction digits and the rest. *)
Definition number (s : string) : option (N * Z * string) :=
  match digitpart s 0 with
  | Some (ip, _, String "." r) =>
      match digitpart r ip with
      | Some (m, k, r') => Some (m, k, r')
      | None => Some (ip, 0, r)
      end
  | Some (ip, _, r) => Some (ip, 0, r)
  | None =>
      match s with
      | String "." r => digitpart r 0
      | _ => None
      end
  end.

(** [exponent ::= ("e" | "E") [sign] digitpart], which must end the text. *)
Definition exponent (s : string) : option Z :=
  match s with
  | EmptyString => Some 0
  | String c r =>
      if Ascii.eqb c "e" || Ascii.eqb c "E" then
        let '(neg, r') :=
          match r with
          | String "-" t => (true, t)
          | String "+" t => (false, t)
          | _ => (false, r)
          end in
        match digitpart r' 0 with
        | Some (m, _, EmptyString) => Some (if neg then - Z.of_N m else Z.of_N m)
        | _ => None
        end
      else None
  end.

Definition absfloatvalue (neg : bool) (s : string) : option pyfloat :=
  let w := lower s in
  if String.eqb w "inf" || String.eqb w "infinity" then Some (FInf neg)
  else if String.eqb w "nan" then Some FNan
  else match number s with
       | Some (m, k, r) =>
           match exponent r with
           | Some e => Some (mk_dec neg m (e - k))
           | None => None
           end
       | None => None
       end.

(** [float(s)] on text whose surrounding blanks are those of [sp]. *)
Definition parse_float (sp : ascii -> bool) (s : string) : result pyfloat :=
  let t := rstrip_by sp (lstrip_by sp s) in
  let parsed :=
    match t with
    | String "-" r => absfloatvalue true r
    | String "+" r => absfloatvalue false r
    | _ => absfloatvalue false t
    end in
  match parsed with
  | Some f => Ok f
  | None => Raise (ValueError ("could not convert string to float: " ++ s))
  end.

(** ** [re.findall(r'[-+]?\d*\.\d+|\d+', s)] *)

Fixpoint digits_span (s : string) : string * string :=
  match s with
  | String c s' =>
      if is_digit c then let '(d, r) := digits_span s' in (String c d, r)
      else (EmptyString, s)
  | EmptyString => (EmptyString, EmptyString)
  end.

(** [\d*\.\d+] at the head of [s]: the match and what follows it. *)
Definition match_fraction (s : string) : option (string * string) :=
  let '(ip, r) := digits_span s in
  match r with
  | String "." r' =>
      match digits_span r' with
      | (EmptyString, _) => None
      | (fp, r'') => Some (ip ++ String "." fp, r'')
      end
  | _ => None
  end.

(** One attempt of the whole pattern at the head of [s]: the signed
    decimal alternative first (with the sign, then without it), the
    plain digit run second. *)
Definition match_number (s : string) : option (string * string) :=
  let signed :=
    match s with
    | String c s' =>
        if Ascii.eqb c "-" || Ascii.eqb c "+" then
          match match_fraction s' with
          | Some (m, r) => Some (String c m, r)
          | None => None
          end
        else None
    | EmptyString => None
    end in
  match signed with
  | Some mr => Some mr
  | None =>
      match match_fraction s with
      | Some mr => Some mr
      | None =>
          match digits_span s with
          | (EmptyString, _) => None
          | (d, r) => Some (d, r)
          end
      end
  end.

(** Left-to-right scan for the non-overlapping matches; [fuel] bounds the
    number of scan steps and the length of the text is enough. *)
Fixpoint findall_from (fuel : nat) (s : string) : list string :=
  match fuel with
  | O => []
  | S fuel' =>
      match match_number s with
      | Some (m, r) => m :: findall_from fuel' r
      | None =>
          match s with
          | String _ s' => findall_from fuel' s'
          | EmptyString => []
          end
      end
  end.

Definition findall_numbers (s : string) : list string :=
  findall_from (S (String.length s)) s.

(** ** Dates *)

Record date := Date { year : Z; month : Z; day : Z }.

(** [%Y] for a year between 1 and 9999, the years of [datetime.date]:
    the year in decimal without padding, as the GNU C library prints it. *)
Definition year_text (y : Z) : string :=
  if y <? 10 then String (digit_char y) EmptyString
  else if y <? 100 then pad2 y
  else if y <? 1000 then String (digit_char (y / 100)) (pad2 y)
  else pad4 y.

(** [d.strftime("%Y-%m-%d")] *)
Definition strftime_ymd (d : date) : string :=
  year_text (year d) ++ "-" ++ pad2 (month d) ++ "-" ++ pad2 (day d).

(** [t.strftime("%H:%M")] *)
Definition strftime_hm (hour minute : Z) : string :=
  pad2 hour ++ ":" ++ pad2 minute.

Definition is_leap (y : Z) : bool :=
  (y mod 4 =? 0) && (negb (y mod 100 =? 0) || (y mod 400 =? 0)).

Definition days_before_year (y : Z) : Z :=
  let p := y - 1 in p * 365 + p / 4 - p / 100 + p / 400.

Definition DAYS_IN_MONTH (m : Z) : Z :=
  nth (Z.to_nat m) [0; 31; 28; 31; 30; 31; 30; 31; 31; 30; 31; 30; 31] 0.

Definition DAYS_BEFORE_MONTH (m : Z) : Z :=
  nth (Z.to_nat m) [0; 0; 31; 59; 90; 120; 151; 181; 212; 243; 273; 304; 334] 0.

Definition days_before_month (y m : Z) : Z :=
  DAYS_BEFORE_MONTH m + (if (2 <? m) && is_leap y then 1 else 0).

(** [date.toordinal()] *)
Definition toordinal (d : date) : Z :=
  days_before_year (year d) + days_before_month (year d) (month d) + day d.

(** [date.fromordinal(n)] *)
Definition fromordinal (n : Z) : date :=
  let n := n - 1 in
  let n400 := n / 146097 in let n := n mod 146097 in
  let y := n400 * 400 + 1 in
  let n100 := n / 36524 in let n := n mod 36524 in
  let n4 := n / 1461 in let n := n mod 1461 in
  let n1 := n / 365 in let n := n mod 365 in
  let y := y + n100 * 100 + n4 * 4 + n1 in
  if (n1 =? 4) || (n100 =? 4) then Date (y - 1) 12 31
  else
    let leapyear := (n1 =? 3) && (negb (n4 =? 24) || (n100 =? 3)) in
    let m := Z.shiftr (n + 50) 5 in
    let preceding := DAYS_BEFORE_MONTH m + (if (2 <? m) && leapyear then 1 else 0) in
    let '(m, preceding) :=
      if n <? preceding
      then (m - 1,
            preceding - (DAYS_IN_MONTH (m - 1)
                         + (if (m - 1 =? 2) && leapyear then 1 else 0)))
      else (m, preceding) in
    Date y m (n - preceding + 1).

Definition MAXORDINAL : Z := 3652059.

(** [d + datetime.timedelta(days=n)] *)
Definition add_days (d : date) (n : Z) : result date :=
  if 999999999 <? Z.abs n
  then Raise (OverflowError "days out of range for timedelta")
  else
    let o := toordinal d + n in
    if (0 <? o) && (o <=? MAXORDINAL) then Ok (fromordinal o)
    else Raise (OverflowError "date value out of range").

Definition days_in_month (y m : Z) : Z :=
  if (m =? 2) && is_leap y then 29 else DAYS_IN_MONTH m.

(** The fields of a [datetime.date] are always in range. *)
Definition valid_date (d : date) : bool :=
  (1 <=? year d) && (year d <=? 9999)
  && (1 <=? month d) && (month d <=? 12)
  && (1 <=? day d) && (day d <=? days_in_month (year d) (month d)).

(** [datetime.date(y, m, d)] *)
Definition check_date_fields (y m d : Z) : result date :=
  if negb ((1 <=? y) && (y <=? 9999))
  then Raise (ValueError ("year " ++ year_text y ++ " is out of range"))
  else if negb ((1 <=? m) && (m <=? 12))
  then Raise (ValueError "month must be in 1..12")
  else if negb ((1 <=? d) && (d <=? days_in_month y m))
  then Raise (ValueError "day is out of range for month")
  else Ok (Date y m d).

Definition digit_of (c : ascii) : Z := Z.of_N (digit_value c).

(** The month of [strptime], [1[0-2]|0[1-9]|[1-9]], and the dash behind
    it: the alternative taken is the first one that the dash follows.
    Gives the month and the text after the dash. *)
Definition month_field (s : string) : option (Z * string) :=
  let two_digits :=
    match s with
    | String a (String b r) =>
        if (Ascii.eqb a "1" && between 48 50 b) || (Ascii.eqb a "0" && between 49 57 b)
        then Some (digit_of a * 10 + digit_of b, r)
        else None
    | _ => None
    end in
  let one_digit :=
    match s with
    | String a r => if between 49 57 a then Some (digit_of a, r) else None
    | EmptyString => None
    end in
  match two_digits with
  | Some (m, String "-" r) => Some (m, r)
  | _ =>
      match one_digit with
      | Some (m, String "-" r) => Some (m, r)
      | _ => None
      end
  end.

(** The day of [strptime], [3[01]|[12]\d|0[1-9]|[1-9]| [1-9]]: nothing
    follows it in the pattern, so the first alternative that matches is
    taken.  Gives the day and the text the match leaves. *)
Definition day_field (s : string) : option (Z * string) :=
  match s with
  | String a (String b r) =>
      if (Ascii.eqb a "3" && between 48 49 b)
         || (between 49 50 a && is_digit b)
         || (Ascii.eqb a "0" && between 49 57 b)
      then Some (digit_of a * 10 + digit_of b, r)
      else if between 49 57 a then Some (digit_of a, String b r)
      else if Ascii.eqb a " " && between 49 57 b then Some (digit_of b, r)
      else None
  | String a EmptyString =>
      if between 49 57 a then Some (digit_of a, EmptyString) else None
  | EmptyString => None
  end.

(** [datetime.datetime.strptime(s, "%Y-%m-%d").date()] on ASCII text:
    four digits for the year, the dash, the month, the dash, the day,
    and nothing behind; then the date is built.  The text of the error
    quotes [s] the way [repr] quotes plain text. *)
Definition strptime_ymd (s : string) : result date :=
  let no_match :=
    Raise (ValueError ("time data '" ++ s ++ "' does not match format '%Y-%m-%d'")) in
  match s with
  | String y1 (String y2 (String y3 (String y4 (String "-" r)))) =>
      if forallb is_digit [y1; y2; y3; y4] then
        match month_field r with
        | Some (m, r') =>
            match day_field r' with
            | Some (d, EmptyString) =>
                check_date_fields
                  (digit_of y1 * 1000 + digit_of y2 * 100 + digit_of y3 * 10 + digit_of y4)
                  m d
            | Some (_, rest) => Raise (ValueError ("unconverted data remains: " ++ rest))
            | None => no_match
            end
        | None => no_match
        end
      else no_match
  | _ => no_match
  end.

(** The reading of the clock at [hour]:[minute] on the day [d], in
    microseconds from the start of the first day. *)
Definition clock (d : date) (hour minute : Z) : Z :=
  ((toordinal d - 1) * 86400 + hour * 3600 + minute * 60) * 1000000.

(** ** UTF-8 validity, for [bytes.decode("utf-8")] *)

Definition is_cont (c : ascii) : bool := (128 <=? code c)%N && (code c <=? 191)%N.

Fixpoint utf8_valid (b : string) : bool :=
  match b with
  | EmptyString => true
  | String c0 r0 =>
      if (code c0 <? 128)%N then utf8_valid r0
      else
        match r0 with
        | EmptyString => false
        | String c1 r1 =>
            if between 194 223 c0 then is_cont c1 && utf8_valid r1
            else
              match r1 with
              | EmptyString => false
              | String c2 r2 =>
                  if between 224 239 c0 then
                    (if (code c0 =? 224)%N then between 160 191 c1
                     else if (code c0 =? 237)%N then between 128 159 c1
                     else is_cont c1)
                    && is_cont c2 && utf8_valid r2
                  else
                    match r2 with
                    | EmptyString => false
                    | String c3 r3 =>
                        between 240 244 c0
                        && (if (code c0 =? 240)%N then between 144 191 c1
                            else if (code c0 =? 244)%N then between 128 143 c1
                            else is_cont c1)
                        && is_cont c2 && is_cont c3 && utf8_valid r3
                    end
              end
        end
  end.

Definition decode_utf8 (b : string) : result string :=
  if utf8_valid b then Ok b
  else Raise (UnicodeDecodeError "'utf-8' codec can't decode bytes").

(** ** Property values

    The values an iCalendar component hands out for a property: Python
    built-ins and the property classes of the icalendar package that the
    normaliser tells apart. *)

#[warnings="-register-all"]
Inductive pyval : Type :=
| PNone
| PStr (s : string)                      (* str, and vText / vUri which subclass it *)
| PBytes (b : string)
| PInt (z : Z)
| PFloat (f : pyfloat)
| PList (items : list pyval)
| PTuple (items : list pyval)
| PDate (d : date)                       (* datetime.date *)
| PDateTime (d : date) (hour minute : Z) (* datetime.datetime *)
| PTime (hour minute : Z)                (* datetime.time *)
| PTimedelta (microseconds : Z)          (* datetime.timedelta *)
| PDDD (dt : pyval)                      (* vDDDTypes, vDate, vDatetime: attribute dt *)
| PGeo (lat lon : pyfloat)               (* vGeo: attributes latitude, longitude *)
| PCategory (cats : list string).        (* vCategory: attribute cats *)

(** [bool(v)], as [if v:] tests it *)
Definition truthy (v : pyval) : bool :=
  match v with
  | PNone => false
  | PStr s => nonempty s
  | PBytes b => nonempty b
  | PInt z => negb (z =? 0)
  | PFloat f => negb (float_is_zero f)
  | PList items | PTuple items => match items with [] => false | _ => true end
  | PTimedelta us => negb (us =? 0)
  | PDate _ | PDateTime _ _ _ | PTime _ _ | PDDD _ | PGeo _ _ | PCategory _ => true
  end.

(** [v.dt] *)
Definition attr_dt (v : pyval) : result pyval :=
  match v with
  | PDDD dt => Ok dt
  | _ => Raise (AttributeError "object has no attribute 'dt'")
  end.

(** [hasattr(v, 'latitude') and hasattr(v, 'longitude')] *)
Definition has_latitude_longitude (v : pyval) : bool :=
  match v with PGeo _ _ => true | _ => false end.

Definition attr_latitude (v : pyval) : result pyval :=
  match v with
  | PGeo lat _ => Ok (PFloat lat)
  | _ => Raise (AttributeError "object has no attribute 'latitude'")
  end.

Definition attr_longitude (v : pyval) : result pyval :=
  match v with
  | PGeo _ lon => Ok (PFloat lon)
  | _ => Raise (AttributeError "object has no attribute 'longitude'")
  end.

(** [hasattr(v, '__iter__')] *)
Definition has_iter (v : pyval) : bool :=
  match v with
  | PStr _ | PBytes _ | PList _ | PTuple _ | PCategory _ => true
  | _ => false
  end.

(** [len(v)] *)
Definition py_len (v : pyval) : result Z :=
  match v with
  | PStr s | PBytes s => Ok (Z.of_nat (String.length s))
  | PList items | PTuple items => Ok (Z.of_nat (List.length items))
  | _ => Raise (TypeError "object has no len()")
  end.

(** [v[i]] for an index [i] that is not negative *)
Definition getitem (v : pyval) (i : nat) : result pyval :=
  match v with
  | PStr s =>
      match String.get i s with
      | Some c => Ok (PStr (String c EmptyString))
      | None => Raise (Exc "IndexError" "string index out of range")
      end
  | PBytes b =>
      match String.get i b with
      | Some c => Ok (PInt (Z.of_N (code c)))
      | None => Raise (Exc "IndexError" "index out of range")
      end
  | PList items | PTuple items =>
      match nth_error items i with
      | Some x => Ok x
      | None => Raise (Exc "IndexError" "list index out of range")
      end
  | _ => Raise (TypeError "object is not subscriptable")
  end.

(** [float(v)] *)
Definition py_float (v : pyval) : result pyfloat :=
  match v with
  | PFloat f => Ok f
  | PInt z => Ok (float_of_int z)
  | PStr s => parse_float is_space s
  | PBytes b => parse_float is_space_byte b
  | _ => Raise (TypeError "float() argument must be a string or a real number")
  end.

(** [d.strftime("%Y-%m-%d")] on whatever [d] is; a [datetime.time]
    prints the date 1900-01-01. *)
Definition py_strftime_ymd (d : pyval) : result string :=
  match d with
  | PDate d | PDateTime d _ _ => Ok (strftime_ymd d)
  | PTime _ _ => Ok "1900-01-01"
  | _ => Raise (AttributeError "object has no attribute 'strftime'")
  end.

(** ** Components and calendars *)

#[warnings="-register-all"]
Inductive Component : Type :=
| mkComponent (name : string) (props : list (string * pyval))
              (subcomponents : list Component).

Definition name (c : Component) : string :=
  match c with mkComponent n _ _ => n end.

Definition props (c : Component) : list (string * pyval) :=
  match c with mkComponent _ p _ => p end.

Definition subcomponents (c : Component) : list Component :=
  match c with mkComponent _ _ s => s end.

Fixpoint lookup (key : string) (kvs : list (string * pyval)) : option pyval :=
  match kvs with
  | [] => None
  | (k, v) :: kvs' => if String.eqb k key then Some v else lookup key kvs'
  end.

(** [component.get(key, default)] *)
Definition get (c : Component) (key : string) (default : pyval) : pyval :=
  match lookup key (props c) with
  | Some v => v
  | None => default
  end.

(** [component.walk()]: the component, then its descendants, depth first *)
Fixpoint walk (c : Component) : list Component :=
  match c with
  | mkComponent _ _ subs => c :: flat_map walk subs
  end.

(** ** The feed cache *)

Definition CALENDAR_URL : string := "https://calendar.northeastern.edu/search/events.ics".

Record calendar_cache := Cache {
  last_fetch : option Z;
  data : option Component
}.

(** [datetime.timedelta(hours=1)], in microseconds *)
Definition cache_duration : Z := 3600 * 1000000.

(** The module-level value of [calendar_cache] *)
Definition initial_cache : calendar_cache := Cache None None.

(** What the outside world answers when it is asked during one call. *)
Record http_response := Response {
  raise_for_status : result unit;
  text : string
}.

Record upstream := Upstream {
  client_get : result http_response;
  from_ical : string -> result Component
}.

(** What the outside world has to offer when it is asked: the document
    behind a response that arrives, passes its status check and parses.
    This is a fact about the world alone, whatever the service does. *)
Definition answer (up : upstream) : result Component :=
  response <- client_get up ;;
  _ <- raise_for_status response ;;
  from_ical up (text response).

Definition answers (up : upstream) : bool := negb (raises (answer up)).

Inductive effect : Type :=
| Stderr (line : string)
| HttpGet (url : string)
| IcalParse (body : string).

(** The body of the [try] up to the cache update: request, status check,
    parse; with the effects performed on the way. *)
Definition attempt (up : upstream) : result Component * list effect :=
  let started := [Stderr ("Fetching calendar data from " ++ CALENDAR_URL);
                  HttpGet CALENDAR_URL] in
  match client_get up with
  | Raise e => (Raise e, started)
  | Ok response =>
      match raise_for_status response with
      | Raise e => (Raise e, started)
      | Ok _ => (from_ical up (text response), (started ++ [IcalParse (text response)])%list)
      end
  end.

(** The refresh branch of [fetch_calendar_data]: the [try] block and its
    [except Exception] handler. *)
Definition refresh (now : Z) (up : upstream) (cache : calendar_cache)
  : result Component * calendar_cache * list effect :=
  match attempt up with
  | (Ok cal, log) => (Ok cal, Cache (Some now) (Some cal), log)
  | (Raise e, log) =>
      let log := (log ++ [Stderr ("Error fetching calendar data: " ++ exn_text e)])%list in
      match data cache with
      | Some stale => (Ok stale, cache, (log ++ [Stderr "Using stale cached data"])%list)
      | None =>
          (Raise (Exc "Exception" ("Failed to fetch calendar data: " ++ exn_text e)),
           cache, log)
      end
  end.

(** One call at time [now] against the world [up], from the cache state
    [cache]: the outcome, the cache afterwards and the effects. *)
Definition fetch_calendar_data (now : Z) (up : upstream) (cache : calendar_cache)
  : result Component * calendar_cache * list effect :=
  match last_fetch cache, data cache with
  | Some t, Some cal =>
      if cache_duration <? now - t then refresh now up cache
      else (Ok cal, cache, [])
  | _, _ => refresh now up cache
  end.

(** ** The event normaliser *)

Record geo_point := GeoPoint { latitude : pyfloat; longitude : pyfloat }.

(** The dictionary [extract_event_details] returns, one field per key. *)
Record NormalizedEvent := Event {
  summary : string;
  start_date : option string;
  start_time : option string;
  end_date : option string;
  end_time : option string;
  location : string;
  description : string;
  url : string;
  geo : option geo_point;
  categories : list string
}.

(** [[c.strip() for c in pieces if c.strip()]] *)
Definition stripped (pieces : list string) : list string :=
  map strip (filter (fun c => nonempty (strip c)) pieces).

Section Normalizer.

(** [str(v)] for a value that is not text: whatever its class prints. *)
Variable py_repr : pyval -> string.

(** [s.lower()], with the case tables of Unicode. *)
Variable py_lower : string -> string.

(** [str(v)] *)
Definition py_str (v : pyval) : string :=
  match v with
  | PStr s => s
  | _ => py_repr v
  end.

(** The body of the [try] that reads DTSTART (or DTEND): the date
    object and the time text. *)
Definition read_date_time (component : Component) (key : string)
  : result (pyval * option string) :=
  let event_start := get component key PNone in
  if truthy event_start then
    event_start <- attr_dt event_start ;;
    match event_start with
    | PDateTime d h m => Ok (PDate d, Some (strftime_hm h m))
    | _ => Ok (event_start, None)
    end
  else Ok (PNone, None).

(** The body of the [try] that reads GEO. *)
Definition read_geo (component : Component) : result (option geo_point) :=
  let geo := get component "GEO" PNone in
  if truthy geo then
    if has_latitude_longitude geo then
      lat <- attr_latitude geo ;; lat <- py_float lat ;;
      lon <- attr_longitude geo ;; lon <- py_float lon ;;
      Ok (Some (GeoPoint lat lon))
    else
      sized <- (if has_iter geo then n <- py_len geo ;; Ok (2 <=? n) else Ok false) ;;
      if sized then
        latitude <- getitem geo 0 ;; longitude <- getitem geo 1 ;;
        lat <- py_float latitude ;; lon <- py_float longitude ;;
        Ok (Some (GeoPoint lat lon))
      else
        match geo with
        | PStr s =>
            if has_char ";" s then
              match split ";" s with
              | p0 :: p1 :: _ =>
                  lat <- py_float (PStr p0) ;; lon <- py_float (PStr p1) ;;
                  Ok (Some (GeoPoint lat lon))
              | _ => Ok None
              end
            else
              match findall_numbers s with
              | n0 :: n1 :: _ =>
                  lat <- py_float (PStr n0) ;; lon <- py_float (PStr n1) ;;
                  Ok (Some (GeoPoint lat lon))
              | _ => Ok None
              end
        | _ => Ok None
        end
  else Ok None.

(** One round of the loop over a list-valued CATEGORIES. *)
Definition extend_categories (categories : list string) (cat_item : pyval) : list string :=
  match cat_item with
  | PStr s => (categories ++ stripped (split "," s))%list
  | PCategory cats => (categories ++ stripped cats)%list
  | _ => categories
  end.

(** The body of the [try] that reads CATEGORIES. *)
Definition read_categories (component : Component) : result (list string) :=
  let raw_categories := get component "CATEGORIES" PNone in
  if truthy raw_categories then
    match raw_categories with
    | PList items => Ok (fold_left extend_categories items [])
    | PBytes b =>
        try_except
          (decoded <- decode_utf8 b ;; Ok (stripped (split "," decoded)))
          (fun _ => Ok (stripped (split "," (py_str raw_categories))))
    | PStr s => Ok (stripped (split "," s))
    | PCategory cats => Ok (stripped cats)
    | _ => Ok []
    end
  else Ok [].

(** [d.strftime("%Y-%m-%d") if d else None] *)
Definition date_text (d : pyval) : result (option string) :=
  if truthy d then s <- py_strftime_ymd d ;; Ok (Some s) else Ok None.

(** The dictionary of the outer [except]. *)
Definition minimal_event (component : Component) : NormalizedEvent :=
  {| summary := py_str (get component "SUMMARY" (PStr "Unknown Event"));
     start_date := None; start_time := None;
     end_date := None; end_time := None;
     location := ""; description := ""; url := "";
     geo := None; categories := [] |}.

Definition extract_event_details (component : Component) : result NormalizedEvent :=
  try_except
    (let event_summary := py_str (get component "SUMMARY" (PStr "")) in
     '(event_start_date, event_start_time) <-
        try_except (read_date_time component "DTSTART") (fun _ => Ok (PNone, None)) ;;
     '(event_end_date, event_end_time) <-
        try_except (read_date_time component "DTEND") (fun _ => Ok (PNone, None)) ;;
     event_location <-
        try_except (Ok (py_str (get component "LOCATION" (PStr "")))) (fun _ => Ok "") ;;
     event_description <-
        try_except (Ok (py_str (get component "DESCRIPTION" (PStr "")))) (fun _ => Ok "") ;;
     event_url <-
        try_except (Ok (py_str (get component "URL" (PStr "")))) (fun _ => Ok "") ;;
     geo_data <- try_except (read_geo component) (fun _ => Ok None) ;;
     categories <- try_except (read_categories component) (fun _ => Ok []) ;;
     start <- date_text event_start_date ;;
     finish <- date_text event_end_date ;;
     Ok {| summary := event_summary;
           start_date := start; start_time := event_start_time;
           end_date := finish; end_time := event_end_time;
           location := event_location; description := event_description;
           url := event_url; geo := geo_data; categories := categories |})
    (fun _ => Ok (minimal_event component)).

(** The dictionary built on the main path, from the values the guarded
    blocks leave behind. *)
Definition full_event (c : Component) (start finish : option string) : NormalizedEvent :=
  {| summary := py_str (get c "SUMMARY" (PStr ""));
     start_date := start;
     start_time := snd (guarded (read_date_time c "DTSTART") (PNone, None));
     end_date := finish;
     end_time := snd (guarded (read_date_time c "DTEND") (PNone, None));
     location := py_str (get c "LOCATION" (PStr ""));
     description := py_str (get c "DESCRIPTION" (PStr ""));
     url := py_str (get c "URL" (PStr ""));
     geo := guarded (read_geo c) None;
     categories := guarded (read_categories c) [] |}.

(** The sort key of [get_all_events] *)
Definition sort_key (x : NormalizedEvent) : string :=
  match start_date x with
  | Some s => if nonempty s then s else "9999-12-31"
  | None => "9999-12-31"
  end.

(** [list.sort] is a stable sort that compares keys with [<] only;
    the result of such a sort is unique, and insertion from the right
    computes it. *)
Fixpoint insert_event (x : NormalizedEvent) (sorted : list NormalizedEvent)
  : list NormalizedEvent :=
  match sorted with
  | [] => [x]
  | y :: rest =>
      if String.ltb (sort_key y) (sort_key x) then y :: insert_event x rest
      else x :: y :: rest
  end.

Fixpoint sort_events (events : list NormalizedEvent) : list NormalizedEvent :=
  match events with
  | [] => []
  | x :: rest => insert_event x (sort_events rest)
  end.

(** The loop of [get_all_events] over [cal.walk()] *)
Fixpoint collect_events (components : list Component) : result (list NormalizedEvent) :=
  match components with
  | [] => Ok []
  | component :: rest =>
      if String.eqb (name component) "VEVENT" then
        event_details <- extract_event_details component ;;
        events <- collect_events rest ;;
        Ok (event_details :: events)
      else collect_events rest
  end.

(** What [get_all_events] does with the calendar it was handed. *)
Definition events_of_calendar (cal : Component) : result (list NormalizedEvent) :=
  events <- collect_events (walk cal) ;;
  Ok (sort_events events).

Definition get_all_events (now : Z) (up : upstream) (cache : calendar_cache)
  : result (list NormalizedEvent) * calendar_cache * list effect :=
  let '(fetched, cache', log) := fetch_calendar_data now up cache in
  (cal <- fetched ;; events_of_calendar cal, cache', log).

(** ** The query tools, up to the text they print

    Each tool is modelled up to the list it goes on to render: the
    result is that list, or the exception its handler turns into an
    error message. [today] is [datetime.date.today()]. *)

(** [event["start_date"] and today_str <= event["start_date"] <= end_date_str] *)
Definition in_window (today_str end_date_str : string) (event : NormalizedEvent) : bool :=
  match start_date event with
  | Some s => nonempty s && String.leb today_str s && String.leb s end_date_str
  | None => false
  end.

Definition date_is (today_str : string) (event : NormalizedEvent) : bool :=
  match start_date event with
  | Some s => String.eqb s today_str
  | None => false
  end.

(** The list [today_events] of [get_today_events] *)
Definition today_events (all_events : list NormalizedEvent) (today : date)
  : list NormalizedEvent :=
  filter (date_is (strftime_ymd today)) all_events.

(** The list [upcoming_events] of [get_upcoming_events] *)
Definition upcoming_events (all_events : list NormalizedEvent) (today : date) (days : Z)
  : result (list NormalizedEvent) :=
  end_date <- add_days today days ;;
  let today_str := strftime_ymd today in
  let end_date_str := strftime_ymd end_date in
  Ok (filter (in_window today_str end_date_str) all_events).

(** The list [matching_events] of [search_events] *)
Definition search_matching_events (all_events : list NormalizedEvent) (today : date)
           (query : string) (days : Z) : result (list NormalizedEvent) :=
  end_date <- add_days today days ;;
  let today_str := strftime_ymd today in
  let end_date_str := strftime_ymd end_date in
  let query := py_lower query in
  Ok (filter (fun event =>
                in_window today_str end_date_str event
                && (contains query (py_lower (summary event))
                    || contains query (py_lower (description event))))
             all_events).

(** The list [category_events] of [get_events_by_category] *)
Definition category_events (all_events : list NormalizedEvent) (today : date)
           (category : string) (days : Z) : result (list NormalizedEvent) :=
  end_date <- add_days today days ;;
  let today_str := strftime_ymd today in
  let end_date_str := strftime_ymd end_date in
  let category := py_lower category in
  Ok (filter (fun event =>
                in_window today_str end_date_str event
                && existsb (fun cat => contains category (py_lower cat)) (categories event))
             all_events).

(** The list [matching_events] of [get_event_details] *)
Definition details_matching_events (all_events : list NormalizedEvent)
           (event_name : string) : list NormalizedEvent :=
  let event_name_lower := py_lower event_name in
  filter (fun event => contains event_name_lower (py_lower (summary event))) all_events.

(** A tool: [get_all_events], then the selection. *)
Definition tool (select : list NormalizedEvent -> result (list NormalizedEvent))
           (now : Z) (up : upstream) (cache : calendar_cache)
  : result (list NormalizedEvent) * calendar_cache * list effect :=
  let '(all_events, cache', log) := get_all_events now up cache in
  (all_events <- all_events ;; select all_events, cache', log).

Definition get_today_events (today : date) :=
  tool (fun all_events => Ok (today_events all_events today)).

Definition get_upcoming_events (today : date) (days : Z) :=
  tool (fun all_events => upcoming_events all_events today days).

Definition search_events (today : date) (query : string) (days : Z) :=
  tool (fun all_events => search_matching_events all_events today query days).

Definition get_events_by_category (today : date) (category : string) (days : Z) :=
  tool (fun all_events => category_events all_events today category days).

Definition get_event_details (event_name : string) :=
  tool (fun all_events => Ok (details_matching_events all_events event_name)).

End Normalizer.

(** ** Histories of calls to the feed cache *)

(** One call: the clock reading and the world's answer. *)
Definition call : Type := Z * upstream.

Definition is_http_get (e : effect) : bool :=
  match e with HttpGet _ => true | _ => false end.

Definition outcome_of {A} (r : result A * calendar_cache * list effect) : result A :=
  fst (fst r).

Definition cache_of {A} (r : result A * calendar_cache * list effect) : calendar_cache :=
  snd (fst r).

Definition effects_of {A} (r : result A * calendar_cache * list effect) : list effect :=
  snd r.

(** The call goes to the network and the fetch runs to its end. *)
Definition fetch_completes (cache : calendar_cache) (c : call) : bool :=
  existsb is_http_get (effects_of (fetch_calendar_data (fst c) (snd c) cache))
  && negb (raises (fst (attempt (snd c)))).

(** The cache together with the flag "some fetch has completed". *)
Definition step (st : calendar_cache * bool) (c : call) : calendar_cache * bool :=
  (cache_of (fetch_calendar_data (fst c) (snd c) (fst st)),
   snd st || fetch_completes (fst st) c).

(** The state after a sequence of calls made since the process started. *)
Definition run (calls : list call) : calendar_cache * bool :=
  fold_left step calls (initial_cache, false).

(** At one of the calls the world had a document to offer. *)
Definition answered (calls : list call) : bool :=
  existsb (fun c => answers (snd c)) calls.

(** A snapshot is fresh at [now]. *)
Definition fresh (now : Z) (cache : calendar_cache) : bool :=
  match last_fetch cache, data cache with
  | Some t, Some _ => now - t <=? cache_duration
  | _, _ => false
  end.

(** The state invariant of the cache, with the history flag. *)
Definition cache_inv (st : calendar_cache * bool) : Prop :=
  (data (fst st) = None <-> snd st = false)
  /\ (last_fetch (fst st) = None <-> data (fst st) = None).

(** ** The GEO strategies taken one by one

    Each way of reading a GEO value as a function of its own: [Ok None]
    when the shape it is meant for is not there (or it finds no pair),
    [Ok (Some p)] when it yields two floats, [Raise] when it fails. *)

Definition pair_of (a b : pyval) : result (option geo_point) :=
  lat <- py_float a ;; lon <- py_float b ;; Ok (Some (GeoPoint lat lon)).

Definition geo_structured (v : pyval) : result (option geo_point) :=
  if has_latitude_longitude v then
    lat <- attr_latitude v ;; lon <- attr_longitude v ;; pair_of lat lon
  else Ok None.

Definition geo_iterable (v : pyval) : result (option geo_point) :=
  if has_iter v then
    n <- py_len v ;;
    if 2 <=? n then a <- getitem v 0 ;; b <- getitem v 1 ;; pair_of a b
    else Ok None
  else Ok None.

Definition geo_semicolon (v : pyval) : result (option geo_point) :=
  match v with
  | PStr s =>
      if has_char ";" s then
        match split ";" s with
        | p0 :: p1 :: _ => pair_of (PStr p0) (PStr p1)
        | _ => Ok None
        end
      else Ok None
  | _ => Ok None
  end.

Definition geo_numbers (v : pyval) : result (option geo_point) :=
  match v with
  | PStr s =>
      match findall_numbers s with
      | n0 :: n1 :: _ => pair_of (PStr n0) (PStr n1)
      | _ => Ok None
      end
  | _ => Ok None
  end.

Definition geo_strategies : list (pyval -> result (option geo_point)) :=
  [geo_structured; geo_iterable; geo_semicolon; geo_numbers].

(** The resolution the specification words: the first strategy that
    yields two floats wins, one that raises is passed over. *)
Fixpoint first_success (strategies : list (pyval -> result (option geo_point)))
         (v : pyval) : option geo_point :=
  match strategies with
  | [] => None
  | strategy :: rest =>
      match strategy v with
      | Ok (Some p) => Some p
      | _ => first_success rest v
      end
  end.

(** The resolution in which the first strategy whose shape is there
    settles the field, also when it raises. *)
Fixpoint first_settled (strategies : list (pyval -> result (option geo_point)))
         (v : pyval) : option geo_point :=
  match strategies with
  | [] => None
  | strategy :: rest =>
      match strategy v with
      | Ok (Some p) => Some p
      | Raise _ => None
      | Ok None => first_settled rest v
      end
  end.

(** ** Order of the output *)

Definition key_le (x y : NormalizedEvent) : Prop :=
  String.leb (sort_key x) (sort_key y) = true.

Definition has_key (k : string) (x : NormalizedEvent) : bool :=
  String.eqb (sort_key x) k.

(** No event with a date stands behind an event without one. *)
Definition absent_after_present (events : list NormalizedEvent) : Prop :=
  forall before x after y,
    events = (before ++ x :: after)%list -> In y after ->
    start_date x = None -> start_date y = None.

(** The same component without the property [key]. *)
Definition without (key : string) (c : Component) : Component :=
  mkComponent (name c)
              (filter (fun kv => negb (String.eqb (fst kv) key)) (props c))
              (subcomponents c).

Definition is_vevent (c : Component) : bool := String.eqb (name c) "VEVENT".

(** ** Shapes of the date and time texts *)

(** Four digits, a dash, two digits, a dash, two digits. *)
Definition is_ymd (s : string) : bool :=
  match s with
  | String y1 (String y2 (String y3 (String y4 (String "-"
      (String m1 (String m2 (String "-" (String d1 (String d2 EmptyString))))))))) =>
      forallb is_digit [y1; y2; y3; y4; m1; m2; d1; d2]
  | _ => false
  end.

(** Two digits, a colon, two digits. *)
Definition is_hm (s : string) : bool :=
  match s with
  | String h1 (String h2 (String ":" (String m1 (String m2 EmptyString)))) =>
      forallb is_digit [h1; h2; m1; m2]
  | _ => false
  end.

(** Calendar order on dates, field by field. *)
Definition date_compare (a b : date) : comparison :=
  match year a ?= year b with
  | Eq => match month a ?= month b with
          | Eq => day a ?= day b
          | c => c
          end
  | c => c
  end.

(** The date a DTSTART or DTEND value carries, if it carries one. *)
Definition carried_date (v : pyval) : option date :=
  match v with
  | PDDD (PDate d) | PDDD (PDateTime d _ _) => Some d
  | _ => None
  end.

(** The date under [key], if there is one, has a year of four digits. *)
Definition four_digit_year (c : Component) (key : string) : Prop :=
  forall d, carried_date (get c key PNone) = Some d -> 1000 <= year d <= 9999.

(** The dates [strftime_ymd] prints on ten characters: a year of four
    digits, a month and a day of at most two. *)
Definition printable (d : date) : Prop :=
  1000 <= year d <= 9999 /\ 0 <= month d <= 99 /\ 0 <= day d <= 99.

(** ** Requests made over a history of calls *)

(** The clock readings of the calls that go to the network, from the
    cache state [cache] on. *)
Fixpoint get_times (cache : calendar_cache) (calls : list call) : list Z :=
  match calls with
  | [] => []
  | c :: rest =>
      let r := fetch_calendar_data (fst c) (snd c) cache in
      if existsb is_http_get (effects_of r)
      then fst c :: get_times (cache_of r) rest
      else get_times (cache_of r) rest
  end.

(** More than the cache duration lies between two requests. *)
Definition apart (t t' : Z) : Prop := cache_duration < t' - t.

(** ** The category listing *)

(** [all_categories.add(category)], the set being kept as a list
    without repetition; the order of the list stands for the arbitrary
    iteration order of the set. *)
Definition set_add (x : string) (s : list string) : list string :=
  if existsb (String.eqb x) s then s else x :: s.

(** [if category: all_categories.add(category)] *)
Definition add_category (acc : list string) (category : string) : list string :=
  if nonempty category then set_add category acc else acc.

(** The set [all_categories] of [list_categories] *)
Definition all_categories (all_events : list NormalizedEvent) : list string :=
  fold_left (fun acc event => fold_left add_category (categories event) acc)
            all_events [].

(** [sorted(...)] on text *)
Fixpoint insert_string (x : string) (sorted : list string) : list string :=
  match sorted with
  | [] => [x]
  | y :: rest =>
      if String.ltb y x then y :: insert_string x rest else x :: y :: rest
  end.

Fixpoint sort_strings (l : list string) : list string :=
  match l with
  | [] => []
  | x :: rest => insert_string x (sort_strings rest)
  end.

(** The list [sorted_categories] of [list_categories] *)
Definition sorted_categories (all_events : list NormalizedEvent) : list string :=
  sort_strings (all_categories all_events).

(** ** The grouping by date of [get_upcoming_events] and
    [get_events_by_category]

    The dictionary [events_by_date] is an association list in insertion
    order; its keys are the [start_date] values, text or [None]. *)

Definition date_groups : Type := list (option string * list NormalizedEvent).

Definition key_eqb (a b : option string) : bool :=
  match a, b with
  | Some x, Some y => String.eqb x y
  | None, None => true
  | _, _ => false
  end.

(** [if date not in events_by_date: events_by_date[date] = []] followed
    by [events_by_date[date].append(event)] *)
Fixpoint group_append (date : option string) (event : NormalizedEvent)
         (groups : date_groups) : date_groups :=
  match groups with
  | [] => [(date, [event])]
  | (d, es) :: rest =>
      if key_eqb d date then (d, (es ++ [event])%list) :: rest
      else (d, es) :: group_append date event rest
  end.

Definition events_by_date (events : list NormalizedEvent) : date_groups :=
  fold_left (fun groups event => group_append (start_date event) event groups) events [].

Fixpoint group_of (date : option string) (groups : date_groups) : list NormalizedEvent :=
  match groups with
  | [] => []
  | (d, es) :: rest => if key_eqb d date then es else group_of date rest
  end.

Definition texts (keys : list (option string)) : list string :=
  flat_map (fun k => match k with Some s => [s] | None => [] end) keys.

Definition is_text (k : option string) : bool :=
  match k with Some _ => true | None => false end.

(** [sorted(events_by_date.keys())]: no comparison is made on fewer than
    two keys; comparing [None] with text raises. *)
Definition sorted_keys (keys : list (option string)) : result (list (option string)) :=
  match keys with
  | [] | [_] => Ok keys
  | _ =>
      if forallb is_text keys then Ok (map Some (sort_strings (texts keys)))
      else Raise (TypeError "'<' not supported between instances of 'NoneType' and 'str'")
  end.

(** [datetime.datetime.strptime(date, "%Y-%m-%d").date()] on a key *)
Definition strptime_key (key : option string) : result date :=
  match key with
  | Some s => strptime_ymd s
  | None => Raise (TypeError "strptime() argument 0 must be str, not <class 'NoneType'>")
  end.

(** The loop over the sorted dates: the date is parsed, for the name of
    its day, then the heading and the group are written.  A date that
    does not parse ends the loop with the exception, and what was
    written is lost. *)
Fixpoint write_groups (events_by_date : date_groups) (dates : list (option string))
  : result date_groups :=
  match dates with
  | [] => Ok []
  | date :: rest =>
      date_obj <- strptime_key date ;;
      written <- write_groups events_by_date rest ;;
      Ok ((date, group_of date events_by_date) :: written)
  end.

(** The groups in the order in which they are written out, each with its
    date; the day names and the text itself are left out. *)
Definition groups_in_order (events : list NormalizedEvent) : result date_groups :=
  let events_by_date := events_by_date events in
  dates <- sorted_keys (map fst events_by_date) ;;
  write_groups events_by_date dates.

(** ** The text of two tools *)

Definition newline : string := String (ascii_of_nat 10) EmptyString.

(** [str(i)] for a count *)
Definition decimal (i : nat) : string := NilZero.string_of_uint (Nat.to_uint i).

(** [text if text else ""] behind a label *)
Definition labelled (label : string) (value : string) : string :=
  if nonempty value then label ++ value else "".

(** The loop of [get_today_events] from index [i] on *)
Fixpoint today_lines (i : nat) (today_events : list NormalizedEvent) : string :=
  match today_events with
  | [] => ""
  | event :: rest =>
      let time_str :=
        match start_time event with
        | Some t => labelled " at " t
        | None => ""
        end in
      let location_str := labelled (newline ++ "Location: ") (location event) in
      decimal i ++ ". " ++ summary event ++ time_str ++ location_str ++ newline
      ++ "   URL: " ++ url event ++ newline ++ newline
      ++ today_lines (S i) rest
  end.

(** The body of the [try] of [get_today_events], once the events are
    there. *)
Definition today_text (all_events : list NormalizedEvent) (today : date) : string :=
  let today_str := strftime_ymd today in
  match today_events all_events today with
  | [] => "No events scheduled for today."
  | selected =>
      "Events for today (" ++ today_str ++ "):" ++ newline ++ newline
      ++ today_lines 1 selected
  end.

(** [get_today_events] with the text it returns. *)
Definition get_today_events_text (py_repr : pyval -> string) (today : date)
           (now : Z) (up : upstream) (cache : calendar_cache)
  : string * calendar_cache * list effect :=
  let '(all_events, cache', log) := get_all_events py_repr now up cache in
  (match all_events with
   | Ok all_events => today_text all_events today
   | Raise e => "Error retrieving today's events: " ++ exn_text e
   end, cache', log).

(** The loop of [list_categories] from index [i] on *)
Fixpoint category_lines (i : nat) (sorted_categories : list string) : string :=
  match sorted_categories with
  | [] => ""
  | category :: rest =>
      decimal i ++ ". " ++ category ++ newline ++ category_lines (S i) rest
  end.

Definition categories_text (all_events : list NormalizedEvent) : string :=
  match all_categories all_events with
  | [] => "No categories found in the calendar."
  | _ =>
      "Available event categories:" ++ newline ++ newline
      ++ category_lines 1 (sorted_categories all_events)
  end.

Definition list_categories (py_repr : pyval -> string)
           (now : Z) (up : upstream) (cache : calendar_cache)
  : string * calendar_cache * list effect :=
  let '(all_events, cache', log) := get_all_events py_repr now up cache in
  (match all_events with
   | Ok all_events => categories_text all_events
   | Raise e => "Error listing categories: " ++ exn_text e
   end, cache', log).

(** ** Predicates of the further properties *)

(** A whitespace character starts the text. *)
Definition starts_blank (s : string) : Prop :=
  exists w r, In w whitespace /\ s = w ++ r.

(** A whitespace character ends the text. *)
Definition ends_blank (s : string) : Prop :=
  exists w r, In w whitespace /\ s = r ++ w.

(** An entry is clean: not empty, nothing to trim, no whitespace
    character at either end. *)
Definition clean (c : string) : Prop :=
  nonempty c = true /\ strip c = c /\ ~ starts_blank c /\ ~ ends_blank c.

(** Strict text order *)
Definition text_lt (a b : string) : Prop := String.ltb a b = true.

(** A group holds at least one event, all of the date it stands under. *)
Definition group_ok (g : option string * list NormalizedEvent) : Prop :=
  exists k, fst g = Some k /\ snd g <> []
            /\ Forall (fun e => start_date e = Some k) (snd g).

(** The date of the first group is before the date of the second. *)
Definition group_lt (g g' : option string * list NormalizedEvent) : Prop :=
  exists a b, fst g = Some a /\ fst g' = Some b /\ text_lt a b.

(** [strptime] accepts the key. *)
Definition parses (key : option string) : bool := negb (raises (strptime_key key)).

(** The event is dated, by a date in range whose year has four digits. *)
Definition dated_on_four_digits (e : NormalizedEvent) : Prop :=
  exists d, start_date e = Some (strftime_ymd d)
            /\ valid_date d = true /\ 1000 <= year d.

(** The dictionary of the grouping, read group after group, is the list
    it was made from, under strictly increasing dates, and sorting its
    keys changes nothing; the loop writes these groups when every date
    parses and raises otherwise. *)
Definition groups_keep_order (events : list NormalizedEvent) : Prop :=
  let groups := events_by_date events in
  sorted_keys (map fst groups) = Ok (map fst groups)
  /\ List.concat (map snd groups) = events
  /\ StronglySorted group_lt groups
  /\ Forall group_ok groups
  /\ groups_in_order events = write_groups groups (map fst groups)
  /\ raises (groups_in_order events) = negb (forallb parses (map fst groups))
  /\ (forall written, groups_in_order events = Ok written -> written = groups)
  /\ (Forall dated_on_four_digits events -> groups_in_order events = Ok groups).

(** ** Sample data *)

Definition event_with (fields : list (string * pyval)) : Component :=
  mkComponent "VEVENT" fields [].

Definition calendar_of (events : list Component) : Component :=
  mkComponent "VCALENDAR" [] events.

Definition plain_repr (v : pyval) : string := "<object>".

Definition offline : upstream :=
  Upstream (Raise (Exc "ConnectError" "network is unreachable"))
           (fun _ => Raise (ValueError "not a calendar")).

Definition online (cal : Component) : upstream :=
  Upstream (Ok (Response (Ok tt) "BEGIN:VCALENDAR")) (fun _ => Ok cal).

Definition on_day (title : string) (d : date) : Component :=
  event_with [("SUMMARY", PStr title); ("DTSTART", PDDD (PDate d))].

Definition march : Component :=
  calendar_of [on_day "Fourteenth" (Date 2024 3 14);
               event_with [("SUMMARY", PStr "Undated")];
               on_day "Tenth" (Date 2024 3 10);
               on_day "Ninth" (Date 2024 3 9);
               on_day "Thirteenth" (Date 2024 3 13)].

Definition seminar : Component :=
  event_with [("SUMMARY", PStr "Seminar");
              ("DTSTART", PDDD (PDateTime (Date 2024 3 10) 9 30));
              ("DTEND", PDDD (PDateTime (Date 2024 3 10) 17 5));
              ("GEO", PStr "42.34;-71.08");
              ("CATEGORIES", PList [PStr "Workshop, Lecture"; PStr " Sports ,"])].

Definition seminar_event : NormalizedEvent :=
  Event "Seminar" (Some "2024-03-10") (Some "09:30") (Some "2024-03-10") (Some "17:05")
        "" "" "" (Some (GeoPoint (FDec false 4 0) (FDec false 2 0)))
        ["Workshop"; "Lecture"; "Sports"].

Definition busy_day : list call :=
  [(0, online march); (1000000, online march); (3600000000, online march);
   (3600000001, online march); (3700000000, online march);
   (7200000002, online march)].

Definition ordered_feed : Component :=
  calendar_of [on_day "Ninth" (Date 2024 3 9);
               on_day "Tenth" (Date 2024 3 10);
               event_with [("SUMMARY", PStr "Undated")]].

Definition march_events : list NormalizedEvent :=
  guarded (events_of_calendar plain_repr march) [].

(** * Properties *)

(** ** Feed cache *)

Lemma attempt_cases (up : upstream) :
  (exists cal log, attempt up = (Ok cal, log) /\ existsb is_http_get log = true)
  \/ (exists e log, attempt up = (Raise e, log) /\ existsb is_http_get log = true).
Proof.
  unfold attempt.
  destruct (client_get up) as [response | e]; [| right; eauto].
  destruct (raise_for_status response) as [u | e]; [| right; eauto].
  destruct (from_ical up (text response)) as [cal | e]; [left | right]; eauto.
Qed.

Lemma existsb_app_l (f : effect -> bool) (l l' : list effect) :
  existsb f l = true -> existsb f (l ++ l') = true.
Proof. intros H. rewrite existsb_app, H. reflexivity. Qed.

(** What a call does, by the state it finds and the world's answer. *)
Lemma fetch_calendar_data_fresh now up cache :
  fresh now cache = true ->
  exists cal, data cache = Some cal
              /\ fetch_calendar_data now up cache = (Ok cal, cache, []).
Proof.
  unfold fresh, fetch_calendar_data.
  destruct (last_fetch cache) as [t |]; [| discriminate].
  destruct (data cache) as [cal |]; [| discriminate].
  intros H. exists cal. split; [reflexivity |].
  destruct (Z.ltb_spec cache_duration (now - t)); [| reflexivity].
  apply Z.leb_le in H. lia.
Qed.

Lemma fetch_calendar_data_not_fresh now up cache :
  fresh now cache = false ->
  fetch_calendar_data now up cache = refresh now up cache.
Proof.
  unfold fresh, fetch_calendar_data.
  destruct (last_fetch cache) as [t |]; [| reflexivity].
  destruct (data cache) as [cal |]; [| reflexivity].
  intros H. apply Z.leb_gt in H.
  destruct (Z.ltb_spec cache_duration (now - t)); [reflexivity | lia].
Qed.

Lemma refresh_effects now up cache :
  existsb is_http_get (effects_of (refresh now up cache)) = true.
Proof.
  unfold refresh.
  destruct (attempt_cases up) as [(cal & log & -> & H) | (e & log & -> & H)].
  - exact H.
  - destruct (data cache); cbn [effects_of snd];
      repeat apply existsb_app_l; exact H.
Qed.

Lemma fetch_completes_spec cache now up :
  fetch_completes cache (now, up)
  = negb (fresh now cache) && negb (raises (fst (attempt up))).
Proof.
  unfold fetch_completes. cbn [fst snd]. f_equal.
  destruct (fresh now cache) eqn:F.
  - destruct (fetch_calendar_data_fresh now up cache F) as (cal & _ & ->).
    reflexivity.
  - rewrite (fetch_calendar_data_not_fresh now up cache F).
    apply refresh_effects.
Qed.

Lemma step_inv st c : cache_inv st -> cache_inv (step st c).
Proof.
  destruct st as [cache ever], c as [now up].
  unfold cache_inv, step. cbn [fst snd].
  rewrite fetch_completes_spec.
  intros [Hd Hl].
  destruct (fresh now cache) eqn:F.
  - destruct (fetch_calendar_data_fresh now up cache F) as (cal & Hc & ->).
    cbn [cache_of fst snd negb andb]. rewrite orb_false_r. split; assumption.
  - rewrite (fetch_calendar_data_not_fresh now up cache F).
    unfold refresh.
    destruct (attempt up) as [[cal | e] log]; cbn [fst raises negb andb].
    + cbn [cache_of fst snd last_fetch data]. rewrite orb_true_r.
      split; split; discriminate.
    + rewrite orb_false_r.
      destruct (data cache) as [stale |] eqn:E; cbn [cache_of fst snd];
        rewrite E; split; assumption.
Qed.

Lemma run_from_inv calls : forall st, cache_inv st -> cache_inv (fold_left step calls st).
Proof.
  induction calls as [| c calls IH]; intros st H; cbn [fold_left].
  - exact H.
  - apply IH, step_inv, H.
Qed.

Lemma run_inv calls : cache_inv (run calls).
Proof.
  apply run_from_inv. unfold cache_inv. cbn. tauto.
Qed.

Lemma refresh_outcome now up cache :
  match attempt up with
  | (Ok cal, log) => refresh now up cache = (Ok cal, Cache (Some now) (Some cal), log)
  | (Raise e, log) =>
      match data cache with
      | Some stale =>
          outcome_of (refresh now up cache) = Ok stale
          /\ cache_of (refresh now up cache) = cache
          /\ In (Stderr "Using stale cached data") (effects_of (refresh now up cache))
      | None =>
          refresh now up cache
          = (Raise (Exc "Exception" ("Failed to fetch calendar data: " ++ exn_text e)),
             cache,
             (log ++ [Stderr ("Error fetching calendar data: " ++ exn_text e)])%list)
      end
  end.
Proof.
  unfold refresh.
  destruct (attempt up) as [[cal | e] log]; [reflexivity |].
  destruct (data cache) as [stale |]; [| reflexivity].
  cbn [outcome_of cache_of effects_of fst snd].
  repeat split. apply in_or_app. right. left. reflexivity.
Qed.

(** The document a call returns is the one the cache holds afterwards;
    a call that raises leaves a cache without document. *)
Lemma fetch_outcome_data now up cache :
  match outcome_of (fetch_calendar_data now up cache) with
  | Ok cal => data (cache_of (fetch_calendar_data now up cache)) = Some cal
  | Raise _ => data (cache_of (fetch_calendar_data now up cache)) = None
  end.
Proof.
  destruct (fresh now cache) eqn:F.
  - destruct (fetch_calendar_data_fresh now up cache F) as (cal & Hc & ->).
    exact Hc.
  - rewrite (fetch_calendar_data_not_fresh now up cache F).
    pose proof (refresh_outcome now up cache) as H.
    destruct (attempt up) as [[cal | e] log].
    + rewrite H. reflexivity.
    + destruct (data cache) as [stale |] eqn:E.
      * destruct H as (-> & -> & _). exact E.
      * rewrite H. exact E.
Qed.

Lemma step_provenance st c t cal :
  last_fetch (fst (step st c)) = Some t -> data (fst (step st c)) = Some cal ->
  (last_fetch (fst st) = Some t /\ data (fst st) = Some cal)
  \/ (fst c = t /\ fst (attempt (snd c)) = Ok cal).
Proof.
  destruct st as [cache ever], c as [now up]. unfold step. cbn [fst snd].
  destruct (fresh now cache) eqn:F.
  - destruct (fetch_calendar_data_fresh now up cache F) as (cal' & _ & ->).
    cbn [cache_of fst snd]. auto.
  - rewrite (fetch_calendar_data_not_fresh now up cache F).
    pose proof (refresh_outcome now up cache) as H.
    destruct (attempt up) as [[cal' | e] log]; cbn [fst].
    + rewrite H. cbn [cache_of fst snd last_fetch data].
      intros [= <-] [= <-]. auto.
    + destruct (data cache) as [stale |] eqn:E.
      * destruct H as (_ & -> & _). rewrite E. auto.
      * rewrite H. cbn [cache_of fst snd]. rewrite E. auto.
Qed.

Lemma run_from_provenance calls : forall st t cal,
  last_fetch (fst (fold_left step calls st)) = Some t ->
  data (fst (fold_left step calls st)) = Some cal ->
  (last_fetch (fst st) = Some t /\ data (fst st) = Some cal)
  \/ (exists up, In (t, up) calls /\ fst (attempt up) = Ok cal).
Proof.
  induction calls as [| c calls IH]; intros st t cal Ht Hd; cbn [fold_left] in *.
  - auto.
  - destruct (IH _ _ _ Ht Hd) as [[Ht' Hd'] | (up & Hin & Hup)].
    + destruct (step_provenance st c t cal Ht' Hd') as [? | [Hc Ha]]; [auto |].
      right. exists (snd c). split; [| exact Ha].
      left. destruct c; cbn [fst snd] in *. congruence.
    + right. exists up. split; [right; exact Hin | exact Hup].
Qed.

Lemma attempt_answer up : fst (attempt up) = answer up.
Proof.
  unfold attempt, answer.
  destruct (client_get up) as [response | e]; [| reflexivity]. cbn [bind].
  destruct (raise_for_status response) as [u | e]; reflexivity.
Qed.

(** The flag that [run] keeps, "some call went to the network and its
    fetch ran to its end", is a fact about the world: one of the calls
    found an upstream with a document to offer. *)
Lemma run_from_flag calls : forall st,
  cache_inv st -> snd (fold_left step calls st) = snd st || answered calls.
Proof.
  induction calls as [| [now up] calls IH]; intros st Hinv; cbn [fold_left answered existsb].
  - rewrite orb_false_r. reflexivity.
  - fold (answered calls). rewrite (IH _ (step_inv st (now, up) Hinv)).
    rewrite orb_assoc. f_equal.
    destruct st as [cache ever]. unfold step. cbn [fst snd].
    rewrite fetch_completes_spec, attempt_answer. fold (answers up).
    destruct (fresh now cache) eqn:F; [| reflexivity].
    destruct (fetch_calendar_data_fresh now up cache F) as (cal & Hc & _).
    destruct Hinv as [Hd _]. cbn [fst snd] in Hd.
    destruct ever; [reflexivity |].
    assert (data cache = None) by (apply Hd; reflexivity). congruence.
Qed.

Lemma run_flag calls : snd (run calls) = answered calls.
Proof.
  unfold run. rewrite run_from_flag; [reflexivity |].
  unfold cache_inv. cbn. tauto.
Qed.

(** A document in the cache was fetched by one of the calls, at the time
    the cache records. *)
Lemma run_provenance calls cal :
  data (fst (run calls)) = Some cal ->
  exists t up, last_fetch (fst (run calls)) = Some t
               /\ In (t, up) calls /\ answer up = Ok cal.
Proof.
  intros Hd. destruct (run_inv calls) as [_ Hl].
  destruct (last_fetch (fst (run calls))) as [t |] eqn:Et.
  - destruct (run_from_provenance calls (initial_cache, false) t cal Et Hd)
      as [[H _] | (up & Hin & Hup)]; [discriminate H |].
    exists t, up. rewrite <- attempt_answer. auto.
  - assert (data (fst (run calls)) = None) by (apply Hl; reflexivity). congruence.
Qed.

(** C1. The cached document accessor fails, with the "Failed to fetch
    calendar data" exception, exactly when the upstream had no document
    to offer at any of the calls made since the process started and has
    none to offer now.  In every other case it returns a document; once
    the upstream has answered one of the calls, a call whose refresh
    fails returns the document the cache holds, and this is the document
    one of the earlier calls fetched, at the time the cache records. *)
Theorem fetch_calendar_data_fails_iff (calls : list call) (now : Z) (up : upstream) :
  let cache := fst (run calls) in
  let r := outcome_of (fetch_calendar_data now up cache) in
  (raises r = true <-> answered calls = false /\ raises (answer up) = true)
  /\ (forall e, r = Raise e ->
        exists cause, answer up = Raise cause
          /\ e = Exc "Exception" ("Failed to fetch calendar data: " ++ exn_text cause))
  /\ (raises r = false -> exists cal, r = Ok cal)
  /\ (answered calls = true -> raises (answer up) = true ->
        exists stale t up0,
          r = Ok stale /\ data cache = Some stale /\ last_fetch cache = Some t
          /\ In (t, up0) calls /\ answer up0 = Ok stale).
Proof.
  intros cache r.
  destruct (run_inv calls) as [Hd _]. rewrite run_flag in Hd. fold cache in Hd.
  rewrite <- attempt_answer.
  assert (Hr : (exists cal, r = Ok cal
                  /\ (raises (fst (attempt up)) = true -> data cache = Some cal)
                  /\ (answered calls = false -> raises (fst (attempt up)) = false))
               \/ (exists cause, answered calls = false /\ fst (attempt up) = Raise cause
                     /\ r = Raise (Exc "Exception"
                                     ("Failed to fetch calendar data: " ++ exn_text cause)))).
  { unfold r. destruct (fresh now cache) eqn:F.
    - destruct (fetch_calendar_data_fresh now up cache F) as (cal & Hc & ->).
      left. exists cal. repeat split; [exact (fun _ => Hc) |].
      intros Ev. apply Hd in Ev. congruence.
    - rewrite (fetch_calendar_data_not_fresh now up cache F).
      pose proof (refresh_outcome now up cache) as H.
      destruct (attempt up) as [[cal | e] log].
      + rewrite H. left. exists cal. repeat split. discriminate.
      + destruct (data cache) as [stale |] eqn:E.
        * destruct H as (H & _). left. exists stale. repeat split; [exact H |].
          intros Ev. apply Hd in Ev. discriminate.
        * rewrite H. right. exists e. repeat split. apply Hd. reflexivity. }
  destruct Hr as [(cal & Hr & Hstale & Hnever) | (cause & Ev & Ha & Hr)]; rewrite Hr;
    (split; [split | split; [| split]]).
  - discriminate.
  - intros [Ev Hf]. rewrite (Hnever Ev) in Hf. discriminate.
  - discriminate.
  - intros _. exists cal. reflexivity.
  - intros _ Hf. pose proof (Hstale Hf) as Hc.
    destruct (run_provenance calls cal Hc) as (t & up0 & Ht & Hin & Hup).
    exists cal, t, up0. auto.
  - intros _. split; [exact Ev | rewrite Ha; reflexivity].
  - reflexivity.
  - intros e0 [= <-]. exists cause. split; [exact Ha | reflexivity].
  - discriminate.
  - rewrite Ev. discriminate.
Qed.

(** C8. After any sequence of calls made since the process started, the
    cache holds no document exactly when the upstream had a document to
    offer at none of the calls, which is when no call went to the
    network and saw its fetch run to the end; the document and the fetch
    time are absent together or present together; what the cache holds
    was fetched by one of the calls, at the time it records; and a call
    changes the cache only when it finds the snapshot not fresh and the
    upstream has a document to offer, in which case it stores that
    document and the time of the call. *)
Theorem cache_document_absent_iff_never_fetched (calls : list call) :
  let cache := fst (run calls) in
  (data cache = None <-> answered calls = false)
  /\ snd (run calls) = answered calls
  /\ (last_fetch cache = None <-> data cache = None)
  /\ (forall cal, data cache = Some cal ->
        exists t up, last_fetch cache = Some t /\ In (t, up) calls /\ answer up = Ok cal)
  /\ (forall now up,
        let cache' := cache_of (fetch_calendar_data now up cache) in
        if negb (fresh now cache) && answers up
        then exists cal, answer up = Ok cal /\ cache' = Cache (Some now) (Some cal)
        else cache' = cache).
Proof.
  intros cache.
  destruct (run_inv calls) as [Hd Hl]. rewrite run_flag in Hd.
  fold cache in Hd, Hl.
  split; [exact Hd |]. split; [apply run_flag |]. split; [exact Hl |].
  split; [apply run_provenance |].
  intros now up cache'. unfold cache', answers. rewrite <- attempt_answer.
  destruct (fresh now cache) eqn:F.
  - destruct (fetch_calendar_data_fresh now up cache F) as (cal & _ & ->).
    reflexivity.
  - rewrite (fetch_calendar_data_not_fresh now up cache F).
    pose proof (refresh_outcome now up cache) as H.
    destruct (attempt up) as [[cal | e] log]; cbn [fst raises negb andb].
    + rewrite H. exists cal. split; reflexivity.
    + destruct (data cache) as [stale |].
      * apply H.
      * rewrite H. reflexivity.
Qed.

(** C5. When a refresh is attempted and fails while the cache holds a
    document, the call returns that document, notes on stderr that stale
    data is served, and leaves the cache as it was: neither the document
    nor the fetch time changes.  A later call made past the time to live
    therefore goes to the network again. *)
Theorem failed_refresh_keeps_snapshot
        (now : Z) (up : upstream) (cache : calendar_cache) (stale : Component) (e : exn) :
  data cache = Some stale ->
  fresh now cache = false ->
  fst (attempt up) = Raise e ->
  let r := fetch_calendar_data now up cache in
  outcome_of r = Ok stale
  /\ cache_of r = cache
  /\ last_fetch (cache_of r) = last_fetch cache
  /\ In (Stderr "Using stale cached data") (effects_of r)
  /\ (forall now' up',
        (forall t, last_fetch cache = Some t -> cache_duration < now' - t) ->
        existsb is_http_get (effects_of (fetch_calendar_data now' up' (cache_of r))) = true).
Proof.
  intros Hd F Ha r. unfold r.
  rewrite (fetch_calendar_data_not_fresh now up cache F).
  pose proof (refresh_outcome now up cache) as H.
  destruct (attempt up) as [[cal | e0] log]; [discriminate |].
  rewrite Hd in H. destruct H as (Ho & Hc & Hlog).
  rewrite Hc. repeat split; try assumption.
  intros now' up' Hpast.
  assert (F' : fresh now' cache = false).
  { unfold fresh. destruct (last_fetch cache) as [t |]; [| reflexivity].
    rewrite Hd. apply Z.leb_gt. apply Hpast. reflexivity. }
  rewrite (fetch_calendar_data_not_fresh now' up' cache F').
  apply refresh_effects.
Qed.

(** ** Event normaliser *)

Lemma lookup_without_other key key' kvs :
  key <> key' ->
  lookup key' (filter (fun kv => negb (String.eqb (fst kv) key)) kvs) = lookup key' kvs.
Proof.
  intros Hne. induction kvs as [| [k v] kvs IH]; [reflexivity |].
  cbn [filter fst lookup].
  destruct (String.eqb_spec k key) as [-> | Hk]; cbn [negb].
  - destruct (String.eqb_spec key key'); [contradiction | exact IH].
  - cbn [lookup]. rewrite IH. reflexivity.
Qed.

Lemma lookup_without_same key kvs :
  lookup key (filter (fun kv => negb (String.eqb (fst kv) key)) kvs) = None.
Proof.
  induction kvs as [| [k v] kvs IH]; [reflexivity |].
  cbn [filter fst].
  destruct (String.eqb_spec k key) as [-> | Hk]; cbn [negb]; [exact IH |].
  cbn [lookup]. destruct (String.eqb_spec k key); [contradiction | exact IH].
Qed.

Lemma get_without_other key key' c default :
  key <> key' -> get (without key c) key' default = get c key' default.
Proof.
  intros Hne. unfold get, without. cbn [props].
  rewrite (lookup_without_other key key' _ Hne). reflexivity.
Qed.

Lemma get_without_same key c default : get (without key c) key default = default.
Proof.
  unfold get, without. cbn [props]. rewrite lookup_without_same. reflexivity.
Qed.

Section NormalizerFacts.

Variable py_repr : pyval -> string.

(** The two ways out of [extract_event_details]. *)
Lemma extract_event_details_cases (c : Component) :
  match date_text (fst (guarded (read_date_time c "DTSTART") (PNone, None))),
        date_text (fst (guarded (read_date_time c "DTEND") (PNone, None))) with
  | Ok start, Ok finish =>
      extract_event_details py_repr c = Ok (full_event py_repr c start finish)
  | _, _ => extract_event_details py_repr c = Ok (minimal_event py_repr c)
  end.
Proof.
  unfold extract_event_details, full_event.
  destruct (read_date_time c "DTSTART") as [[sd st] | e1];
    destruct (read_date_time c "DTEND") as [[ed et] | e2];
    destruct (read_geo c) as [g | e3];
    destruct (read_categories py_repr c) as [cs | e4];
    cbn [try_except bind guarded fst snd];
    repeat match goal with
           | |- context [date_text ?d] => destruct (date_text d); cbn [try_except bind]
           end; reflexivity.
Qed.

Lemma extract_event_details_total (c : Component) :
  exists e, extract_event_details py_repr c = Ok e.
Proof.
  pose proof (extract_event_details_cases c) as H.
  destruct (date_text _) in H; [destruct (date_text _) in H |]; eauto.
Qed.

(** A guarded block that raises acts as if its property were not there. *)
Lemma read_date_time_without key key' c :
  key <> key' -> read_date_time (without key c) key' = read_date_time c key'.
Proof.
  intros Hne. unfold read_date_time. rewrite (get_without_other _ _ _ _ Hne).
  reflexivity.
Qed.

Lemma read_date_time_absent key c :
  read_date_time (without key c) key = Ok (PNone, None).
Proof. unfold read_date_time. rewrite get_without_same. reflexivity. Qed.

Lemma read_geo_without key c :
  key <> "GEO" -> read_geo (without key c) = read_geo c.
Proof.
  intros Hne. unfold read_geo. rewrite (get_without_other _ _ _ _ Hne).
  reflexivity.
Qed.

Lemma read_geo_absent c : read_geo (without "GEO" c) = Ok None.
Proof. unfold read_geo. rewrite get_without_same. reflexivity. Qed.

Lemma read_categories_without key c :
  key <> "CATEGORIES" -> read_categories py_repr (without key c) = read_categories py_repr c.
Proof.
  intros Hne. unfold read_categories. rewrite (get_without_other _ _ _ _ Hne).
  reflexivity.
Qed.

(** Reading CATEGORIES has nothing in it that raises past the inner
    [try] around the decoding. *)
Lemma read_categories_total c : raises (read_categories py_repr c) = false.
Proof.
  unfold read_categories.
  destruct (get c "CATEGORIES" PNone); cbn [truthy];
    repeat match goal with
           | |- context [if ?b then _ else _] => destruct b
           | |- context [match ?l with [] => _ | _ :: _ => _ end] => destruct l
           end; try reflexivity.
  all: destruct (decode_utf8 b); reflexivity.
Qed.

Ltac other_keys :=
  rewrite ?read_date_time_without, ?read_geo_without, ?read_categories_without,
    ?get_without_other by discriminate.

Lemma extract_without_failed_start c :
  raises (read_date_time c "DTSTART") = true ->
  extract_event_details py_repr c = extract_event_details py_repr (without "DTSTART" c).
Proof.
  intros H. unfold extract_event_details, minimal_event.
  rewrite read_date_time_absent. other_keys.
  destruct (read_date_time c "DTSTART"); [discriminate | reflexivity].
Qed.

Lemma extract_without_failed_end c :
  raises (read_date_time c "DTEND") = true ->
  extract_event_details py_repr c = extract_event_details py_repr (without "DTEND" c).
Proof.
  intros H. unfold extract_event_details, minimal_event.
  rewrite read_date_time_absent. other_keys.
  destruct (read_date_time c "DTEND"); [discriminate | reflexivity].
Qed.

Lemma extract_without_failed_geo c :
  raises (read_geo c) = true ->
  extract_event_details py_repr c = extract_event_details py_repr (without "GEO" c).
Proof.
  intros H. unfold extract_event_details, minimal_event.
  rewrite read_geo_absent. other_keys.
  destruct (read_geo c); [discriminate | reflexivity].
Qed.

(** The loop keeps one event per VEVENT, in the order of the walk. *)
Lemma collect_events_all (components : list Component) :
  exists events,
    collect_events py_repr components = Ok events
    /\ Forall2 (fun c e => extract_event_details py_repr c = Ok e)
               (filter is_vevent components) events.
Proof.
  induction components as [| c components (events & IH & HF)].
  - exists []. split; [reflexivity | constructor].
  - cbn [collect_events filter]. unfold is_vevent at 1.
    destruct (String.eqb (name c) "VEVENT").
    + destruct (extract_event_details_total c) as [e He].
      exists (e :: events). rewrite He, IH. split; [reflexivity |].
      constructor; assumption.
    + exists events. split; assumption.
Qed.

End NormalizerFacts.

(** ** The order on text *)

Lemma compare_refl (a : string) : String.compare a a = Eq.
Proof.
  induction a as [| x a IH]; [reflexivity |].
  cbn [String.compare]. unfold Ascii.compare. rewrite N.compare_refl. exact IH.
Qed.

Lemma ltb_neq (a b : string) : String.ltb a b = true -> String.eqb a b = false.
Proof.
  unfold String.ltb. intros H. apply String.eqb_neq. intros ->.
  rewrite compare_refl in H. discriminate.
Qed.

Lemma ltb_leb (a b : string) : String.ltb a b = true -> String.leb a b = true.
Proof. unfold String.ltb, String.leb. destruct (String.compare a b); easy. Qed.

Lemma ltb_false_leb (a b : string) : String.ltb a b = false <-> String.leb b a = true.
Proof.
  unfold String.ltb, String.leb. rewrite (String.compare_antisym a b).
  destruct (String.compare b a); cbn; split; easy.
Qed.

Lemma leb_trans (a b c : string) :
  String.leb a b = true -> String.leb b c = true -> String.leb a c = true.
Proof.
  unfold String.leb. revert b c.
  induction a as [| x a IH]; intros [| y b] [| z c]; cbn [String.compare]; try easy.
  unfold Ascii.compare.
  destruct (N.compare_spec (N_of_ascii x) (N_of_ascii y)) as [Exy | Lxy | Gxy];
    destruct (N.compare_spec (N_of_ascii y) (N_of_ascii z)) as [Eyz | Lyz | Gyz];
    destruct (N.compare_spec (N_of_ascii x) (N_of_ascii z)) as [Exz | Lxz | Gxz];
    try easy; try lia.
  apply IH.
Qed.

(** ** The sort of [get_all_events] *)

Lemma insert_event_perm x l : Permutation (x :: l) (insert_event x l).
Proof.
  induction l as [| y l IH]; cbn [insert_event]; [reflexivity |].
  destruct (String.ltb (sort_key y) (sort_key x)); [| reflexivity].
  rewrite perm_swap. apply perm_skip, IH.
Qed.

Lemma sort_events_perm l : Permutation l (sort_events l).
Proof.
  induction l as [| x l IH]; cbn [sort_events]; [reflexivity |].
  rewrite <- insert_event_perm. apply perm_skip, IH.
Qed.

Lemma insert_event_sorted x l :
  StronglySorted key_le l -> StronglySorted key_le (insert_event x l).
Proof.
  induction 1 as [| y l Hs IH Hy]; cbn [insert_event].
  - constructor; constructor.
  - destruct (String.ltb (sort_key y) (sort_key x)) eqn:E.
    + constructor; [exact IH |].
      rewrite <- insert_event_perm. constructor; [| exact Hy].
      apply ltb_leb, E.
    + apply ltb_false_leb in E.
      constructor; [constructor; assumption |].
      constructor; [exact E |].
      eapply Forall_impl; [| exact Hy].
      intros z Hz. unfold key_le in *. eapply leb_trans; eassumption.
Qed.

Lemma sort_events_sorted l : StronglySorted key_le (sort_events l).
Proof.
  induction l as [| x l IH]; cbn [sort_events]; [constructor |].
  apply insert_event_sorted, IH.
Qed.

(** Stability: an insertion only passes events with a smaller key. *)
Lemma insert_event_stable k x l :
  filter (has_key k) (insert_event x l) = filter (has_key k) (x :: l).
Proof.
  induction l as [| y l IH]; cbn [insert_event]; [reflexivity |].
  destruct (String.ltb (sort_key y) (sort_key x)) eqn:E; [| reflexivity].
  cbn [filter] in *. rewrite IH.
  destruct (has_key k y) eqn:Hy; destruct (has_key k x) eqn:Hx; try reflexivity.
  unfold has_key in Hy, Hx. apply String.eqb_eq in Hy, Hx.
  apply ltb_neq in E. apply String.eqb_neq in E. congruence.
Qed.

Lemma sort_events_stable k l :
  filter (has_key k) (sort_events l) = filter (has_key k) l.
Proof.
  induction l as [| x l IH]; cbn [sort_events]; [reflexivity |].
  rewrite insert_event_stable. cbn [filter]. rewrite IH. reflexivity.
Qed.

Lemma sorted_app_later (l : list NormalizedEvent) before x after y :
  StronglySorted key_le l -> l = (before ++ x :: after)%list -> In y after ->
  key_le x y.
Proof.
  intros Hs ->. induction before as [| b before IH]; cbn [app] in Hs.
  - apply StronglySorted_inv in Hs. destruct Hs as [_ Hx].
    rewrite Forall_forall in Hx. auto.
  - apply StronglySorted_inv in Hs. destruct Hs as [Hs _]. auto.
Qed.

Section NormalizerClaims.

Variable py_repr : pyval -> string.

Lemma events_of_calendar_sorted (cal : Component) :
  exists unsorted,
    collect_events py_repr (walk cal) = Ok unsorted
    /\ Forall2 (fun c e => extract_event_details py_repr c = Ok e)
               (filter is_vevent (walk cal)) unsorted
    /\ events_of_calendar py_repr cal = Ok (sort_events unsorted).
Proof.
  destruct (collect_events_all py_repr (walk cal)) as (unsorted & Hc & HF).
  exists unsorted. unfold events_of_calendar. rewrite Hc. repeat split; assumption.
Qed.

(** C2. Normalising a record never raises and always gives the
    ten-field record: either the one built from the guarded blocks, or,
    when building the dictionary itself fails, the record that has only
    the summary (or "Unknown Event") and defaults elsewhere.  A guarded
    block that raises (the two date blocks and the GEO block can, the
    CATEGORIES block cannot) leaves its own fields at their defaults, and
    the record is the one the component would give without that
    property, so the other fields are untouched.  The whole calendar
    therefore yields one event per VEVENT, whatever the records hold. *)
Theorem extract_event_details_never_fails :
  (forall c,
      exists e,
        extract_event_details py_repr c = Ok e
        /\ (e = Event (py_str py_repr (get c "SUMMARY" (PStr "Unknown Event")))
                      None None None None "" "" "" None []
            \/ exists start finish, e = full_event py_repr c start finish)
        /\ (raises (read_date_time c "DTSTART") = true ->
            start_date e = None /\ start_time e = None)
        /\ (raises (read_date_time c "DTEND") = true ->
            end_date e = None /\ end_time e = None)
        /\ (raises (read_geo c) = true -> geo e = None)
        /\ raises (read_categories py_repr c) = false)
  /\ (forall c, raises (read_date_time c "DTSTART") = true ->
        extract_event_details py_repr c
        = extract_event_details py_repr (without "DTSTART" c))
  /\ (forall c, raises (read_date_time c "DTEND") = true ->
        extract_event_details py_repr c
        = extract_event_details py_repr (without "DTEND" c))
  /\ (forall c, raises (read_geo c) = true ->
        extract_event_details py_repr c
        = extract_event_details py_repr (without "GEO" c))
  /\ (forall cal,
        exists unsorted events,
          Forall2 (fun c e => extract_event_details py_repr c = Ok e)
                  (filter is_vevent (walk cal)) unsorted
          /\ events_of_calendar py_repr cal = Ok events
          /\ Permutation unsorted events
          /\ List.length events = List.length (filter is_vevent (walk cal))).
Proof.
  split; [| split; [| split; [| split]]].
  - intros c. pose proof (extract_event_details_cases py_repr c) as H.
    destruct (read_date_time c "DTSTART") as [[sd st] | e1] eqn:E1;
      destruct (read_date_time c "DTEND") as [[ed et] | e2] eqn:E2;
      destruct (read_geo c) as [g | e3] eqn:E3;
      cbn [guarded fst snd] in H;
      repeat match type of H with
             | context [date_text ?d] =>
                 let D := fresh "D" in destruct (date_text d) eqn:D
             end;
      eexists; (split; [exact H |]);
      (split; [first [left; reflexivity | right; eexists; eexists; reflexivity] |]);
      unfold full_event; rewrite ?E1, ?E2, ?E3; cbn [guarded fst snd raises];
      cbn [start_date start_time end_date end_time geo];
      repeat split; try discriminate; try reflexivity;
      try apply read_categories_total;
      try (cbn in *; congruence).
  - apply extract_without_failed_start.
  - apply extract_without_failed_end.
  - apply extract_without_failed_geo.
  - intros cal. destruct (events_of_calendar_sorted cal) as (unsorted & _ & HF & He).
    exists unsorted, (sort_events unsorted).
    split; [exact HF |]. split; [exact He |]. split; [apply sort_events_perm |].
    rewrite <- (Permutation_length (sort_events_perm unsorted)).
    symmetry. eapply Forall2_length, HF.
Qed.

End NormalizerClaims.

(** ** Reading GEO *)

Lemma split_has_two sep s :
  has_char sep s = true -> exists p0 p1 rest, split sep s = p0 :: p1 :: rest.
Proof.
  induction s as [| c s IH]; cbn [has_char split]; [discriminate |].
  rewrite Ascii.eqb_sym.
  destruct (Ascii.eqb c sep); cbn [orb]; intros H.
  - destruct s as [| d s']; cbn [split].
    + eauto.
    + destruct (Ascii.eqb d sep); [eauto |].
      destruct (split sep s') as [| q qs]; eauto.
  - destruct (IH H) as (p0 & p1 & rest & ->). eauto.
Qed.

Lemma first_settled_no_raise strategies v :
  (forall strategy, In strategy strategies -> raises (strategy v) = false) ->
  first_settled strategies v = first_success strategies v.
Proof.
  induction strategies as [| s strategies IH]; intros H; [reflexivity |].
  cbn [first_settled first_success].
  pose proof (H s (or_introl eq_refl)) as Hs.
  destruct (s v) as [[p |] | e]; [reflexivity | | discriminate].
  apply IH. intros s' Hin. apply H. right. exact Hin.
Qed.

Ltac run_binds :=
  repeat match goal with
         | |- context [bind ?m _] =>
             match m with
             | bind _ _ => fail 1
             | _ => destruct m; cbn [bind guarded]
             end
         end.

Lemma read_geo_first_settled (c : Component) :
  guarded (read_geo c) None = first_settled geo_strategies (get c "GEO" PNone).
Proof.
  unfold read_geo. destruct (get c "GEO" PNone) as
      [| s | b | z | f | items | items | d | d h m | h m | us | dt | lat lon | cats].
  all: cbn [truthy has_latitude_longitude has_iter geo_strategies first_settled
            geo_structured geo_iterable geo_semicolon geo_numbers py_len bind guarded].
  all: try reflexivity.
  all: repeat match goal with
         | |- context [if ?b then _ else _] => destruct b eqn:?; cbn [bind guarded]
         end;
       try reflexivity.
  all: unfold pair_of; cbn [attr_latitude attr_longitude py_float bind guarded];
       try reflexivity.
  all: try (run_binds; reflexivity).
  all: try (destruct s; [reflexivity | discriminate]).
  all: try (destruct b; [reflexivity | discriminate]).
  all: try (destruct items; cbn in *; discriminate).
  - (* text with a separator: the split has two pieces *)
    match goal with H : has_char _ s = true |- _ =>
      destruct (split_has_two _ _ H) as (p0 & p1 & rest & ->) end.
    run_binds; reflexivity.
  - destruct (findall_numbers s) as [| n0 [| n1 ns]]; try reflexivity.
    run_binds; reflexivity.
Qed.

(** C3. On the text "42.34;-71.08" the normaliser does not reach the
    semicolon split: the text has a length, so the indexing branch takes
    its first two characters and the event gets latitude 4, longitude 2,
    where the split would give 42.34 and -71.08.  In the same way "12",
    which holds a single number, gets latitude 1 and longitude 2. *)
Theorem geo_text_is_read_by_index (py_repr : pyval -> string) :
  (exists e,
      extract_event_details py_repr
        (event_with [("SUMMARY", PStr "Talk"); ("GEO", PStr "42.34;-71.08")]) = Ok e
      /\ geo e = Some (GeoPoint (FDec false 4 0) (FDec false 2 0)))
  /\ geo_semicolon (PStr "42.34;-71.08")
     = Ok (Some (GeoPoint (FDec false 4234 (-2)) (FDec true 7108 (-2))))
  /\ findall_numbers "12" = ["12"]
  /\ (exists e,
         extract_event_details py_repr (event_with [("GEO", PStr "12")]) = Ok e
         /\ geo e = Some (GeoPoint (FDec false 1 0) (FDec false 2 0))).
Proof.
  split; [| split; [| split]].
  - eexists. split; reflexivity.
  - reflexivity.
  - reflexivity.
  - eexists. split; reflexivity.
Qed.

(** C4, as amended. The GEO value is read by the first strategy, in the
    order structured pair, indexable value of length two or more, text
    with a semicolon, other text, whose shape is there; that strategy
    alone settles the field: two floats if it yields them, absent if it
    raises, and no later strategy is tried after a raise.  If no
    strategy has its shape, the field is absent.  Where no strategy
    raises, this is the first strategy that yields two floats. *)
Theorem geo_first_shape_settles (py_repr : pyval -> string) (c : Component) :
  let v := get c "GEO" PNone in
  guarded (read_geo c) None = first_settled geo_strategies v
  /\ (forall e, extract_event_details py_repr c = Ok e ->
        geo e = first_settled geo_strategies v \/ geo e = None)
  /\ ((forall strategy, In strategy geo_strategies -> raises (strategy v) = false) ->
      first_settled geo_strategies v = first_success geo_strategies v).
Proof.
  intros v. split; [apply read_geo_first_settled |]. split.
  - intros e He. pose proof (extract_event_details_cases py_repr c) as H.
    destruct (date_text _) in H; [destruct (date_text _) in H |];
      rewrite H in He; injection He as <-; cbn [geo full_event minimal_event]; auto.
    left. apply read_geo_first_settled.
  - apply first_settled_no_raise.
Qed.

(** The text "-1;2": indexing gives "-" and "1", [float("-")] raises and
    the field stays absent, although the semicolon split would yield
    the pair -1, 2. *)
Lemma geo_no_fallback_after_raise :
  let v := PStr "-1;2" in
  raises (geo_iterable v) = true
  /\ first_success geo_strategies v = Some (GeoPoint (FDec true 1 0) (FDec false 2 0))
  /\ exists e, extract_event_details plain_repr (event_with [("GEO", v)]) = Ok e
               /\ geo e = None
               /\ geo e <> first_success geo_strategies v.
Proof.
  cbv zeta. split; [reflexivity |]. split; [reflexivity |].
  eexists. split; [reflexivity |]. split; [reflexivity |]. discriminate.
Qed.

(** ** Order of the normalised events *)

Lemma year_text_pad4 y : 1000 <= y -> year_text y = pad4 y.
Proof.
  intros H. unfold year_text.
  destruct (Z.ltb_spec y 10); [lia |].
  destruct (Z.ltb_spec y 100); [lia |].
  destruct (Z.ltb_spec y 1000); [lia | reflexivity].
Qed.

Lemma strftime_ymd_nonempty d : nonempty (strftime_ymd d) = true.
Proof.
  unfold strftime_ymd, year_text.
  destruct (year d <? 10); [reflexivity |].
  destruct (year d <? 100); [reflexivity |].
  destruct (year d <? 1000); reflexivity.
Qed.

Lemma date_text_nonempty d s : date_text d = Ok (Some s) -> nonempty s = true.
Proof.
  unfold date_text. destruct (truthy d); [| discriminate].
  destruct d; cbn [py_strftime_ymd bind]; try discriminate;
    intros [= <-]; [apply strftime_ymd_nonempty .. | reflexivity].
Qed.

Lemma extracted_start_date_nonempty py_repr c e s :
  extract_event_details py_repr c = Ok e -> start_date e = Some s -> nonempty s = true.
Proof.
  intros He. pose proof (extract_event_details_cases py_repr c) as H.
  destruct (date_text _) as [start |] eqn:D in H;
    [destruct (date_text _) in H |];
    rewrite H in He; injection He as <-;
    cbn [start_date full_event minimal_event]; try discriminate.
  intros ->. eapply date_text_nonempty, D.
Qed.

Lemma Forall2_In_r {A B} (R : A -> B -> Prop) l l' y :
  Forall2 R l l' -> In y l' -> exists x, In x l /\ R x y.
Proof.
  induction 1 as [| x y' l l' HR HF IH]; cbn [In]; [contradiction |].
  intros [<- | Hin].
  - exists x. auto.
  - destruct (IH Hin) as (x' & Hx & HRx). exists x'. auto.
Qed.

Lemma sort_key_present e s :
  start_date e = Some s -> nonempty s = true -> sort_key e = s.
Proof. unfold sort_key. intros -> ->. reflexivity. Qed.

Lemma sort_key_absent e : start_date e = None -> sort_key e = "9999-12-31".
Proof. unfold sort_key. intros ->. reflexivity. Qed.

(** C6, as amended. The events come out sorted by start date, an absent
    date counting as "9999-12-31": the output is a rearrangement of the
    normalised records (the sentinel is written into none), keys never
    decrease, events with equal keys keep their source order, dated
    events are in non-decreasing order of their dates, and an event
    without date comes after every event dated before "9999-12-31"; an
    event dated "9999-12-31" or later ties with it or follows it. *)
Theorem get_all_events_sorted (py_repr : pyval -> string) (cal : Component) :
  exists unsorted events,
    collect_events py_repr (walk cal) = Ok unsorted
    /\ events_of_calendar py_repr cal = Ok events
    /\ Permutation unsorted events
    /\ StronglySorted key_le events
    /\ (forall k, filter (has_key k) events = filter (has_key k) unsorted)
    /\ (forall before x after y a b,
           events = (before ++ x :: after)%list -> In y after ->
           start_date x = Some a -> start_date y = Some b ->
           String.leb a b = true)
    /\ (forall before x after y d,
           events = (before ++ x :: after)%list -> In y after ->
           start_date x = None -> start_date y = Some d ->
           String.ltb d "9999-12-31" = false).
Proof.
  destruct (events_of_calendar_sorted py_repr cal) as (unsorted & Hc & HF & He).
  exists unsorted, (sort_events unsorted).
  assert (Hfrom : forall e s, In e (sort_events unsorted) -> start_date e = Some s ->
                              sort_key e = s).
  { intros e s Hin Hs. apply sort_key_present; [exact Hs |].
    apply (Permutation_in _ (Permutation_sym (sort_events_perm unsorted))) in Hin.
    destruct (Forall2_In_r _ _ _ _ HF Hin) as (c & _ & Hext).
    eapply extracted_start_date_nonempty; eassumption. }
  repeat split.
  - exact Hc.
  - exact He.
  - apply sort_events_perm.
  - apply sort_events_sorted.
  - intros k. apply sort_events_stable.
  - intros before x after y a b Heq Hy Ha Hb.
    pose proof (sorted_app_later _ _ _ _ _ (sort_events_sorted unsorted) Heq Hy) as Hle.
    unfold key_le in Hle.
    rewrite (Hfrom x a), (Hfrom y b) in Hle; try assumption.
    + rewrite Heq. apply in_or_app. right. right. exact Hy.
    + rewrite Heq. apply in_or_app. right. left. reflexivity.
  - intros before x after y d Heq Hy Hx Hd.
    pose proof (sorted_app_later _ _ _ _ _ (sort_events_sorted unsorted) Heq Hy) as Hle.
    unfold key_le in Hle.
    rewrite (sort_key_absent x Hx), (Hfrom y d) in Hle; try assumption.
    + apply ltb_false_leb. exact Hle.
    + rewrite Heq. apply in_or_app. right. right. exact Hy.
Qed.

(** A calendar whose first event has no DTSTART and whose second is
    dated 9999-12-31: the event without date comes out first. *)
Lemma undated_event_before_last_day :
  exists undated dated,
    events_of_calendar plain_repr
      (calendar_of [event_with [("SUMMARY", PStr "Undated")];
                    event_with [("SUMMARY", PStr "Last day");
                                ("DTSTART", PDDD (PDate (Date 9999 12 31)))]])
    = Ok [undated; dated]
    /\ start_date undated = None
    /\ start_date dated = Some "9999-12-31"
    /\ ~ absent_after_present [undated; dated].
Proof.
  eexists. eexists. split; [reflexivity |]. split; [reflexivity |].
  split; [reflexivity |].
  intros H.
  specialize (H [] _ _ _ eq_refl (or_introl eq_refl) eq_refl).
  discriminate H.
Qed.

(** ** Query layer *)

Lemma get_all_events_eq py_repr now up cache :
  get_all_events py_repr now up cache
  = (cal <- outcome_of (fetch_calendar_data now up cache) ;; events_of_calendar py_repr cal,
     cache_of (fetch_calendar_data now up cache),
     effects_of (fetch_calendar_data now up cache)).
Proof.
  unfold get_all_events.
  destruct (fetch_calendar_data now up cache) as [[r c] log]. reflexivity.
Qed.

Lemma tool_eq py_repr select now up cache :
  tool py_repr select now up cache
  = (all_events <- outcome_of (get_all_events py_repr now up cache) ;; select all_events,
     cache_of (get_all_events py_repr now up cache),
     effects_of (get_all_events py_repr now up cache)).
Proof.
  unfold tool.
  destruct (get_all_events py_repr now up cache) as [[r c] log]. reflexivity.
Qed.

Lemma get_all_events_fresh py_repr now up cache now0 up0 cache0 :
  fresh now cache = true ->
  cache = cache_of (get_all_events py_repr now0 up0 cache0) ->
  get_all_events py_repr now up cache
  = (outcome_of (get_all_events py_repr now0 up0 cache0), cache, []).
Proof.
  intros F Hc.
  destruct (fetch_calendar_data_fresh now up cache F) as (cal & Hd & Hf).
  rewrite (get_all_events_eq py_repr now up cache), Hf.
  rewrite (get_all_events_eq py_repr now0 up0 cache0) in Hc |- *.
  pose proof (fetch_outcome_data now0 up0 cache0) as Ho.
  unfold outcome_of, cache_of, effects_of in Hc, Ho |- *.
  cbn [fst snd] in Hc, Ho |- *. rewrite <- Hc in Ho.
  destruct (fst (fst (fetch_calendar_data now0 up0 cache0))) as [cal0 | e].
  - rewrite Hd in Ho. injection Ho as ->. reflexivity.
  - congruence.
Qed.

(** C7, as amended. A call that finds the snapshot fresh returns the
    cached document at once: the cache is unchanged and nothing is
    requested, parsed or printed.  So a query made while the snapshot
    left by an earlier query is fresh works, without any fetch and
    whatever the upstream now holds, on the very events the earlier
    query saw; its result is the result of the earlier query when both
    make the same selection, that is, take the same arguments and read
    the same current date. *)
Theorem fresh_snapshot_served_without_fetch
        (py_repr : pyval -> string) (now : Z) (up : upstream) (cache : calendar_cache) :
  fresh now cache = true ->
  (exists cal, data cache = Some cal
               /\ fetch_calendar_data now up cache = (Ok cal, cache, []))
  /\ (forall now0 up0 cache0,
         cache = cache_of (get_all_events py_repr now0 up0 cache0) ->
         get_all_events py_repr now up cache
         = (outcome_of (get_all_events py_repr now0 up0 cache0), cache, []))
  /\ (forall select now0 up0 cache0,
         cache = cache_of (tool py_repr select now0 up0 cache0) ->
         tool py_repr select now up cache
         = (outcome_of (tool py_repr select now0 up0 cache0), cache, []))
  /\ (forall select select' now0 up0 cache0,
         cache = cache_of (tool py_repr select now0 up0 cache0) ->
         tool py_repr select' now up cache
         = (all_events <- outcome_of (get_all_events py_repr now0 up0 cache0) ;;
            select' all_events,
            cache, [])).
Proof.
  intros F. split; [apply fetch_calendar_data_fresh, F |]. split; [| split].
  - intros now0 up0 cache0. apply get_all_events_fresh, F.
  - intros select now0 up0 cache0 Hc.
    rewrite (tool_eq py_repr select now0 up0 cache0) in Hc |- *.
    cbn [outcome_of cache_of fst snd] in Hc |- *.
    rewrite (tool_eq py_repr select now up cache).
    rewrite (get_all_events_fresh py_repr now up cache now0 up0 cache0 F Hc).
    reflexivity.
  - intros select select' now0 up0 cache0 Hc.
    rewrite (tool_eq py_repr select now0 up0 cache0) in Hc.
    cbn [cache_of fst snd] in Hc.
    rewrite (tool_eq py_repr select' now up cache).
    rewrite (get_all_events_fresh py_repr now up cache now0 up0 cache0 F Hc).
    reflexivity.
Qed.

(** Two calls of the today tool twenty minutes apart, one before and one
    after midnight, with the upstream unchanged: the second call finds
    the snapshot of the first fresh and fetches nothing, and it answers
    with the events of the new day, not with those of the first call. *)
Lemma today_tool_differs_across_midnight :
  let before_midnight := clock (Date 2024 3 10) 23 50 in
  let after_midnight := clock (Date 2024 3 11) 0 10 in
  let earlier :=
    get_today_events plain_repr (Date 2024 3 10) before_midnight (online march)
                     initial_cache in
  let later :=
    get_today_events plain_repr (Date 2024 3 11) after_midnight (online march)
                     (cache_of earlier) in
  after_midnight - before_midnight = 20 * 60 * 1000000
  /\ fresh after_midnight (cache_of earlier) = true
  /\ effects_of later = []
  /\ cache_of later = cache_of earlier
  /\ map summary (guarded (outcome_of earlier) []) = ["Tenth"]
  /\ outcome_of later = Ok []
  /\ outcome_of later <> outcome_of earlier.
Proof.
  cbv zeta. repeat split; try (vm_compute; reflexivity).
  vm_compute. discriminate.
Qed.

Lemma leb_nonempty a s : nonempty a = true -> String.leb a s = true -> nonempty s = true.
Proof. destruct a, s; cbn; try easy. Qed.

Lemma in_window_iff today_str end_date_str e :
  nonempty today_str = true ->
  in_window today_str end_date_str e = true
  <-> exists s, start_date e = Some s
                /\ String.leb today_str s = true /\ String.leb s end_date_str = true.
Proof.
  intros Hne. unfold in_window. destruct (start_date e) as [s |].
  - rewrite !andb_true_iff. split.
    + intros [[_ H1] H2]. eauto.
    + intros (s' & [= <-] & H1 & H2).
      repeat split; try assumption. eapply leb_nonempty; eassumption.
  - split; [discriminate | intros (s & H & _); discriminate].
Qed.

Lemma digit_char_cases n :
  In (digit_char n) ["0"; "1"; "2"; "3"; "4"; "5"; "6"; "7"; "8"; "9"]%char.
Proof.
  unfold digit_char.
  assert (H : 0 <= n mod 10 < 10) by (apply Z.mod_pos_bound; lia).
  assert (C : n mod 10 = 0 \/ n mod 10 = 1 \/ n mod 10 = 2 \/ n mod 10 = 3
              \/ n mod 10 = 4 \/ n mod 10 = 5 \/ n mod 10 = 6 \/ n mod 10 = 7
              \/ n mod 10 = 8 \/ n mod 10 = 9) by lia.
  decompose [or] C; match goal with E : _ = _ |- _ => rewrite E end; cbn; tauto.
Qed.

Lemma leb_cons a s b t :
  String.leb (String a s) (String b t)
  = match Ascii.compare a b with
    | Eq => String.leb s t
    | Lt => true
    | Gt => false
    end.
Proof.
  unfold String.leb. cbn [String.compare].
  destruct (Ascii.compare a b); reflexivity.
Qed.

(** Fix the digit printed for [n], keeping the cases the two bounds allow. *)
Ltac digit_cases n L U :=
  let H := fresh "H" in
  pose proof (digit_char_cases n) as H;
  cbn [In] in H;
  decompose [or] H; clear H;
  try contradiction;
  match goal with E : _ = digit_char n |- _ => rewrite <- E in L, U |- *; clear E end;
  rewrite ?leb_cons in L, U;
  cbn [Ascii.compare N_of_ascii N_of_digits N.compare Pos.compare Pos.compare_cont
       N.add N.mul Pos.add Pos.mul] in L, U;
  try discriminate.

(** Between 2024-03-10 and 2024-03-13 a printed date is one of four. *)
Lemma march_window d :
  String.leb "2024-03-10" (strftime_ymd d) = true ->
  String.leb (strftime_ymd d) "2024-03-13" = true ->
  In (strftime_ymd d) ["2024-03-10"; "2024-03-11"; "2024-03-12"; "2024-03-13"].
Proof.
  unfold strftime_ymd, year_text.
  destruct (year d <? 10); [| destruct (year d <? 100); [| destruct (year d <? 1000)]];
    unfold pad4, pad2; cbn [append]; intros L U.
  - (* a year of one digit is followed by the dash too early *)
    digit_cases (year d) L U.
  - digit_cases (year d / 10) L U.
    all: digit_cases (year d) L U.
  - digit_cases (year d / 100) L U.
    all: digit_cases (year d / 10) L U.
    all: digit_cases (year d) L U.
  - digit_cases (year d / 1000) L U.
    digit_cases (year d / 100) L U.
    digit_cases (year d / 10) L U.
    digit_cases (year d) L U.
    digit_cases (month d / 10) L U.
    digit_cases (month d) L U.
    digit_cases (day d / 10) L U.
    digit_cases (day d) L U.
    all: cbn [In]; tauto.
Qed.

Lemma date_text_shape d s :
  date_text d = Ok (Some s) -> (exists d', s = strftime_ymd d') \/ s = "1900-01-01".
Proof.
  unfold date_text. destruct (truthy d); [| discriminate].
  destruct d; cbn [py_strftime_ymd bind]; try discriminate;
    intros [= <-]; eauto.
Qed.

Lemma extracted_start_date_shape py_repr c e s :
  extract_event_details py_repr c = Ok e -> start_date e = Some s ->
  (exists d, s = strftime_ymd d) \/ s = "1900-01-01".
Proof.
  intros He. pose proof (extract_event_details_cases py_repr c) as H.
  destruct (date_text _) as [start |] eqn:D in H;
    [destruct (date_text _) in H |];
    rewrite H in He; injection He as <-;
    cbn [start_date full_event minimal_event]; try discriminate.
  intros ->. eapply date_text_shape, D.
Qed.

(** Every event of [get_all_events] is the normal form of some record. *)
Lemma get_all_events_extracted py_repr now up cache all_events cache' log e :
  get_all_events py_repr now up cache = (Ok all_events, cache', log) ->
  In e all_events -> exists c, extract_event_details py_repr c = Ok e.
Proof.
  rewrite get_all_events_eq. intros [= Hr _ _] Hin.
  destruct (outcome_of (fetch_calendar_data now up cache)) as [cal |]; [| discriminate].
  cbn [bind] in Hr.
  destruct (events_of_calendar_sorted py_repr cal) as (unsorted & _ & HF & He).
  rewrite He in Hr. injection Hr as <-.
  apply (Permutation_in _ (Permutation_sym (sort_events_perm unsorted))) in Hin.
  destruct (Forall2_In_r _ _ _ _ HF Hin) as (c & _ & Hext). eauto.
Qed.

(** C9. When [today + days] is a date, the upcoming-events tool selects,
    in their order, exactly the events of [get_all_events] that have a
    start date [s] with [today <= s <= today + days] as text.  With
    today 2024-03-10 and three days the window ends on 2024-03-13: its
    four days are inside, 2024-03-14 and 2024-03-09 are not. *)
Theorem upcoming_events_window
        (py_repr : pyval -> string) (today end_date : date) (days now : Z)
        (up : upstream) (cache cache' : calendar_cache)
        (all_events : list NormalizedEvent) (log : list effect) :
  add_days today days = Ok end_date ->
  get_all_events py_repr now up cache = (Ok all_events, cache', log) ->
  let selected :=
    filter (in_window (strftime_ymd today) (strftime_ymd end_date)) all_events in
  get_upcoming_events py_repr today days now up cache = (Ok selected, cache', log)
  /\ (forall e, In e selected <->
                In e all_events
                /\ exists s, start_date e = Some s
                             /\ String.leb (strftime_ymd today) s = true
                             /\ String.leb s (strftime_ymd end_date) = true)
  /\ (today = Date 2024 3 10 -> days = 3 ->
      end_date = Date 2024 3 13
      /\ (forall e, In e selected ->
             exists s, start_date e = Some s
                       /\ In s ["2024-03-10"; "2024-03-11"; "2024-03-12"; "2024-03-13"])
      /\ (forall e s, start_date e = Some s ->
             In s ["2024-03-10"; "2024-03-11"; "2024-03-12"; "2024-03-13"] ->
             In e all_events -> In e selected)
      /\ (forall e, start_date e = Some "2024-03-14" -> ~ In e selected)).
Proof.
  intros Hadd Hall selected.
  split; [| split].
  - unfold get_upcoming_events. rewrite tool_eq, Hall.
    cbn [outcome_of cache_of effects_of fst snd bind].
    unfold upcoming_events. rewrite Hadd. reflexivity.
  - intros e. unfold selected. rewrite filter_In, in_window_iff by apply strftime_ymd_nonempty.
    reflexivity.
  - intros -> ->. injection Hadd as <-. split; [reflexivity |]. split; [| split].
    + intros e [He Hw]%filter_In.
      apply in_window_iff in Hw; [| apply strftime_ymd_nonempty].
      destruct Hw as (s & Hs & L & U). exists s. split; [exact Hs |].
      destruct (get_all_events_extracted _ _ _ _ _ _ _ _ Hall He) as (c & Hc).
      destruct (extracted_start_date_shape _ _ _ _ Hc Hs) as [(d & ->) | ->].
      * apply (march_window d L U).
      * discriminate L.
    + intros e s Hs Hin He. apply filter_In. split; [exact He |].
      unfold in_window. rewrite Hs.
      cbn [In] in Hin. decompose [or] Hin; subst; try reflexivity; contradiction.
    + intros e Hs [_ Hw]%filter_In. unfold in_window in Hw. rewrite Hs in Hw.
      discriminate.
Qed.

Lemma ltb_not_leb (a b : string) : String.ltb a b = true -> String.leb b a = false.
Proof.
  intros H. destruct (String.leb b a) eqn:E; [| reflexivity].
  apply ltb_false_leb in E. congruence.
Qed.

(** An event without date, or dated before today, is outside every
    window that starts today. *)
Lemma out_of_window today_str end_date_str e :
  (start_date e = None
   \/ exists s, start_date e = Some s /\ String.ltb s today_str = true) ->
  in_window today_str end_date_str e = false /\ date_is today_str e = false.
Proof.
  unfold in_window, date_is. intros [-> | (s & -> & Hlt)]; [split; reflexivity |].
  rewrite (ltb_not_leb _ _ Hlt), andb_false_r. split; [reflexivity |].
  apply ltb_neq, Hlt.
Qed.

(** C10. The event-details tool selects by name alone: an event of
    [get_all_events] is selected exactly when the name, lowered by
    [str.lower()], occurs in its summary, lowered the same way, whatever
    its start date; names that are lowered to the same text select the
    same events.  On ASCII text, where [str.lower()] lowers the letters
    A to Z and nothing else, this is the match that ignores the case of
    these letters.  An event without start date, or with one before
    today, is selected by none of the tools for today, for the coming
    days, for a search or for a category. *)
Theorem event_details_ignore_dates
        (py_repr : pyval -> string) (py_lower : string -> string)
        (all_events : list NormalizedEvent) :
  (forall event_name now up cache cache' log,
      get_all_events py_repr now up cache = (Ok all_events, cache', log) ->
      get_event_details py_repr py_lower event_name now up cache
      = (Ok (details_matching_events py_lower all_events event_name), cache', log))
  /\ (forall event_name e,
         In e (details_matching_events py_lower all_events event_name)
         <-> In e all_events
             /\ contains (py_lower event_name) (py_lower (summary e)) = true)
  /\ (forall event_name event_name',
         py_lower event_name = py_lower event_name' ->
         details_matching_events py_lower all_events event_name
         = details_matching_events py_lower all_events event_name')
  /\ ((forall s, ascii_only s = true -> py_lower s = lower s) ->
      forall event_name e,
        ascii_only event_name = true -> ascii_only (summary e) = true ->
        (In e (details_matching_events py_lower all_events event_name)
         <-> In e all_events
             /\ contains (lower event_name) (lower (summary e)) = true))
  /\ (forall today e,
         (start_date e = None
          \/ exists s, start_date e = Some s
                       /\ String.ltb s (strftime_ymd today) = true) ->
         ~ In e (today_events all_events today)
         /\ (forall days l, upcoming_events all_events today days = Ok l -> ~ In e l)
         /\ (forall query days l,
                search_matching_events py_lower all_events today query days = Ok l ->
                ~ In e l)
         /\ (forall category days l,
                category_events py_lower all_events today category days = Ok l ->
                ~ In e l)).
Proof.
  split; [| split; [| split; [| split]]].
  - intros event_name now up cache cache' log Hall.
    unfold get_event_details. rewrite tool_eq, Hall. reflexivity.
  - intros event_name e. unfold details_matching_events. apply filter_In.
  - intros event_name event_name' H. unfold details_matching_events.
    rewrite H. reflexivity.
  - intros Hlower event_name e Hn Hs. unfold details_matching_events.
    rewrite filter_In, (Hlower _ Hn), (Hlower _ Hs). reflexivity.
  - intros today e Hpast.
    assert (Hout : forall end_date_str,
               in_window (strftime_ymd today) end_date_str e = false
               /\ date_is (strftime_ymd today) e = false)
      by (intros; apply out_of_window, Hpast).
    split; [| split; [| split]].
    + unfold today_events. intros [_ H]%filter_In.
      rewrite (proj2 (Hout "")) in H. discriminate.
    + intros days l. unfold upcoming_events.
      destruct (add_days today days) as [end_date |]; [| discriminate].
      cbn [bind]. intros [= <-] [_ H]%filter_In.
      rewrite (proj1 (Hout _)) in H. discriminate.
    + intros query days l. unfold search_matching_events.
      destruct (add_days today days) as [end_date |]; [| discriminate].
      cbn [bind]. intros [= <-] [_ H]%filter_In.
      rewrite (proj1 (Hout _)) in H. discriminate.
    + intros category days l. unfold category_events.
      destruct (add_days today days) as [end_date |]; [| discriminate].
      cbn [bind]. intros [= <-] [_ H]%filter_In.
      rewrite (proj1 (Hout _)) in H. discriminate.
Qed.

(** ** The statements at work on sample data *)

Lemma failed_refresh_keeps_snapshot_witness :
  let cache := Cache (Some 0) (Some march) in
  fresh 7200000000 cache = false
  /\ outcome_of (fetch_calendar_data 7200000000 offline cache) = Ok march
  /\ cache_of (fetch_calendar_data 7200000000 offline cache) = cache.
Proof.
  cbv zeta. split; [reflexivity |].
  pose proof (failed_refresh_keeps_snapshot
                7200000000 offline (Cache (Some 0) (Some march)) march
                (Exc "ConnectError" "network is unreachable")
                eq_refl eq_refl eq_refl) as H.
  split; [exact (proj1 H) | exact (proj1 (proj2 H))].
Defined.

Lemma fresh_snapshot_served_without_fetch_witness :
  let cache := Cache (Some 0) (Some march) in
  fresh 3600000000 cache = true
  /\ exists cal, data cache = Some cal
                 /\ fetch_calendar_data 3600000000 offline cache = (Ok cal, cache, []).
Proof.
  cbv zeta. split; [reflexivity |].
  exact (proj1 (fresh_snapshot_served_without_fetch
                  plain_repr 3600000000 offline (Cache (Some 0) (Some march)) eq_refl)).
Defined.

Lemma upcoming_events_window_witness :
  add_days (Date 2024 3 10) 3 = Ok (Date 2024 3 13)
  /\ exists selected cache' log,
      get_upcoming_events plain_repr (Date 2024 3 10) 3 0 (online march) initial_cache
      = (Ok selected, cache', log)
      /\ map summary selected = ["Tenth"; "Thirteenth"].
Proof.
  split; [reflexivity |].
  pose proof (upcoming_events_window
                plain_repr (Date 2024 3 10) (Date 2024 3 13) 3 0 (online march)
                initial_cache _ _ _ eq_refl eq_refl) as H.
  cbv zeta in H. eexists. eexists. eexists.
  split; [exact (proj1 H) | reflexivity].
Defined.

(** A record whose DTSTART holds a duration: building the dictionary
    fails, and the record keeps its summary only. *)
Example duration_as_start_gives_minimal_event :
  extract_event_details plain_repr
    (event_with [("SUMMARY", PStr "Seminar"); ("LOCATION", PStr "Room 12");
                 ("DTSTART", PDDD (PTimedelta 3600000000))])
  = Ok (Event "Seminar" None None None None "" "" "" None []).
Proof. reflexivity. Qed.

(** A record whose DTSTART is plain text: the start is absent, the other
    fields are read as usual. *)
Example text_as_start_keeps_other_fields :
  extract_event_details plain_repr
    (event_with [("SUMMARY", PStr "Seminar"); ("LOCATION", PStr "Room 12");
                 ("DTSTART", PStr "tomorrow");
                 ("DTEND", PDDD (PDateTime (Date 2024 3 10) 17 5));
                 ("GEO", PGeo (FDec false 4234 (-2)) (FDec true 7108 (-2)));
                 ("CATEGORIES", PStr "Workshop, Lecture ,Sports")])
  = Ok (Event "Seminar" None None (Some "2024-03-10") (Some "17:05") "Room 12" "" ""
              (Some (GeoPoint (FDec false 4234 (-2)) (FDec true 7108 (-2))))
              ["Workshop"; "Lecture"; "Sports"]).
Proof. reflexivity. Qed.

Example cold_start_fails :
  outcome_of (fetch_calendar_data 0 offline initial_cache)
  = Raise (Exc "Exception" "Failed to fetch calendar data: network is unreachable").
Proof. reflexivity. Qed.

Example stale_document_after_outage :
  let calls := [(0, online march); (7200000000, offline)] in
  run calls = (Cache (Some 0) (Some march), true)
  /\ outcome_of (fetch_calendar_data 9000000000 offline (fst (run calls))) = Ok march.
Proof. split; reflexivity. Qed.

Example details_return_past_and_undated_events :
  let all_events :=
    guarded (events_of_calendar plain_repr march) [] in
  map summary (details_matching_events lower all_events "NINTH") = ["Ninth"]
  /\ map summary (details_matching_events lower all_events "unDated") = ["Undated"]
  /\ map summary (details_matching_events lower all_events "TEEN") = ["Thirteenth"; "Fourteenth"]
  /\ map summary (guarded (upcoming_events all_events (Date 2024 3 10) 30) [])
     = ["Tenth"; "Thirteenth"; "Fourteenth"].
Proof. repeat split. Qed.

(** * Further properties *)

(** ** Date, time and category fields of a normalised event *)

Lemma is_digit_digit_char n : is_digit (digit_char n) = true.
Proof.
  pose proof (digit_char_cases n) as H. cbn [In] in H.
  decompose [or] H; try contradiction;
    match goal with E : _ = digit_char n |- _ => rewrite <- E end; reflexivity.
Qed.

Lemma is_ymd_strftime d : 1000 <= year d -> is_ymd (strftime_ymd d) = true.
Proof.
  intros H. unfold strftime_ymd. rewrite (year_text_pad4 _ H).
  unfold pad4, pad2. cbn [append is_ymd forallb].
  rewrite !is_digit_digit_char. reflexivity.
Qed.

Lemma is_hm_strftime h m : is_hm (strftime_hm h m) = true.
Proof.
  unfold strftime_hm, pad2. cbn [append is_hm forallb].
  rewrite !is_digit_digit_char. reflexivity.
Qed.

(** What the date block hands on is the date its property carries, or
    no date at all. *)
Lemma read_date_time_value c key v t :
  read_date_time c key = Ok (v, t) ->
  match v with
  | PDate d => carried_date (get c key PNone) = Some d
  | PDateTime _ _ _ => False
  | _ => True
  end.
Proof.
  unfold read_date_time.
  destruct (get c key PNone) as [| | | | | | | | | | | dt | |];
    cbn [truthy attr_dt bind carried_date];
    repeat match goal with
           | |- context [if ?b then _ else _] => destruct b
           end;
    try discriminate; try (intros [= <- <-]; exact I).
  destruct dt; intros [= <- <-]; try exact I; reflexivity.
Qed.

Lemma guarded_date_text_is_ymd c key s :
  four_digit_year c key ->
  date_text (fst (guarded (read_date_time c key) (PNone, None))) = Ok (Some s) ->
  is_ymd s = true.
Proof.
  intros Hy. destruct (read_date_time c key) as [[v t] |] eqn:E;
    cbn [guarded fst]; [| discriminate].
  pose proof (read_date_time_value _ _ _ _ E) as Hv.
  unfold date_text. destruct v; cbn [truthy py_strftime_ymd bind];
    repeat match goal with
           | |- context [if ?b then _ else _] => destruct b
           end;
    try discriminate; try contradiction.
  - intros [= <-]. apply is_ymd_strftime, Hy, Hv.
  - intros [= <-]. reflexivity.
Qed.

(** A time comes out of the date block only beside a [datetime.date]. *)
Lemma read_date_time_time c key d t :
  read_date_time c key = Ok (d, Some t) ->
  exists dd h m, d = PDate dd /\ t = strftime_hm h m.
Proof.
  unfold read_date_time. destruct (truthy (get c key PNone)); [| discriminate].
  destruct (attr_dt (get c key PNone)) as [dt |]; cbn [bind]; [| discriminate].
  destruct dt; intros E; try discriminate.
  injection E as <- <-. eauto.
Qed.

Lemma guarded_date_time_time c key t :
  snd (guarded (read_date_time c key) (PNone, None)) = Some t ->
  exists dd h m,
    fst (guarded (read_date_time c key) (PNone, None)) = PDate dd
    /\ t = strftime_hm h m.
Proof.
  destruct (read_date_time c key) as [[d [t' |]] |] eqn:E; cbn [guarded fst snd];
    try discriminate.
  intros [= ->]. apply (read_date_time_time _ _ _ _ E).
Qed.

(** X1. The date and time texts of a normalised event have fixed
    shapes.  A start or end time is always two digits, a colon, two
    digits.  A start or end date is four digits, a dash, two digits, a
    dash, two digits when the date of the record has a year of four
    digits, from 1000 on; the year of an earlier date is printed as it
    is, on fewer digits. *)
Theorem date_and_time_texts_have_fixed_shape
        (py_repr : pyval -> string) (c : Component) (e : NormalizedEvent) :
  extract_event_details py_repr c = Ok e ->
  (four_digit_year c "DTSTART" -> forall s, start_date e = Some s -> is_ymd s = true)
  /\ (four_digit_year c "DTEND" -> forall s, end_date e = Some s -> is_ymd s = true)
  /\ (forall t, start_time e = Some t -> is_hm t = true)
  /\ (forall t, end_time e = Some t -> is_hm t = true).
Proof.
  intros He. pose proof (extract_event_details_cases py_repr c) as H.
  destruct (date_text _) as [start |] eqn:D1 in H;
    [destruct (date_text _) as [finish |] eqn:D2 in H |];
    rewrite H in He; injection He as <-;
    cbn [start_date end_date start_time end_time full_event minimal_event];
    repeat split; try discriminate.
  - intros Hy s ->. exact (guarded_date_text_is_ymd _ _ _ Hy D1).
  - intros Hy s ->. exact (guarded_date_text_is_ymd _ _ _ Hy D2).
  - intros t Ht. destruct (guarded_date_time_time _ _ _ Ht) as (dd & h & m & _ & ->).
    apply is_hm_strftime.
  - intros t Ht. destruct (guarded_date_time_time _ _ _ Ht) as (dd & h & m & _ & ->).
    apply is_hm_strftime.
Qed.

(** X2. A normalised event never has a time without its date: when the
    start time is present so is the start date, and likewise for the
    end. *)
Theorem time_only_beside_date
        (py_repr : pyval -> string) (c : Component) (e : NormalizedEvent) :
  extract_event_details py_repr c = Ok e ->
  (start_time e <> None -> start_date e <> None)
  /\ (end_time e <> None -> end_date e <> None).
Proof.
  intros He. pose proof (extract_event_details_cases py_repr c) as H.
  destruct (date_text _) as [start |] eqn:D1 in H;
    [destruct (date_text _) as [finish |] eqn:D2 in H |];
    rewrite H in He; injection He as <-;
    cbn [start_date end_date start_time end_time full_event minimal_event];
    split; try (intros N; exfalso; apply N; reflexivity).
  - destruct (snd (guarded (read_date_time c "DTSTART") (PNone, None))) as [t |] eqn:Ht;
      [| intros N; exfalso; apply N; reflexivity].
    destruct (guarded_date_time_time _ _ _ Ht) as (dd & h & m & Hd & _).
    rewrite Hd in D1. cbn in D1. injection D1 as <-. discriminate.
  - destruct (snd (guarded (read_date_time c "DTEND") (PNone, None))) as [t |] eqn:Ht;
      [| intros N; exfalso; apply N; reflexivity].
    destruct (guarded_date_time_time _ _ _ Ht) as (dd & h & m & Hd & _).
    rewrite Hd in D2. cbn in D2. injection D2 as <-. discriminate.
Qed.

(** *** Trimming *)

Lemma append_assoc_string (a b c : string) : (a ++ b) ++ c = a ++ (b ++ c).
Proof.
  induction a as [| x a IH]; cbn [append]; [reflexivity |].
  rewrite IH. reflexivity.
Qed.

Lemma append_empty_r (s : string) : s ++ "" = s.
Proof.
  induction s as [| c s IH]; cbn [append]; [reflexivity |].
  rewrite IH. reflexivity.
Qed.

Lemma after_spec p s r : after p s = Some r <-> s = p ++ r.
Proof.
  revert s. induction p as [| a p IH]; intros s; cbn [after append].
  - split; [intros [= ->] | intros ->]; reflexivity.
  - destruct s as [| b s]; [split; discriminate |].
    destruct (Ascii.eqb_spec a b) as [<- | Hne].
    + rewrite IH. split; [intros -> | intros [= ->]]; reflexivity.
    + split; [discriminate | intros [= E _]; congruence].
Qed.

Lemma cut_some ws s r : cut ws s = Some r -> exists w, In w ws /\ s = w ++ r.
Proof.
  induction ws as [| w ws IH]; cbn [cut]; [discriminate |].
  destruct (after w s) as [r' |] eqn:E.
  - intros [= <-]. exists w. split; [left; reflexivity | apply after_spec, E].
  - intros H. destruct (IH H) as (w' & Hw & Hs). exists w'. split; [right |]; assumption.
Qed.

Lemma cut_none ws s : cut ws s = None -> forall w r, In w ws -> s <> w ++ r.
Proof.
  induction ws as [| w ws IH]; cbn [cut In]; [intros _ w r [] |].
  destruct (after w s) as [r' |] eqn:E; [discriminate |].
  intros H w' r [<- | Hin].
  - intros Hs. apply after_spec in Hs. congruence.
  - apply IH; assumption.
Qed.

Lemma cut_blank_starts s : cut_blank s = None <-> ~ starts_blank s.
Proof.
  unfold cut_blank, starts_blank. split.
  - intros H (w & r & Hw & Hs). exact (cut_none _ _ H w r Hw Hs).
  - intros H. destruct (cut whitespace s) as [r |] eqn:E; [| reflexivity].
    exfalso. apply H. destruct (cut_some _ _ _ E) as (w & Hw & Hs). eauto.
Qed.

Lemma whitespace_nonempty w : In w whitespace -> nonempty w = true.
Proof.
  intros H.
  assert (F : forallb nonempty whitespace = true) by reflexivity.
  rewrite forallb_forall in F. apply F, H.
Qed.

Lemma length_append (a b : string) :
  String.length (a ++ b) = (String.length a + String.length b)%nat.
Proof. induction a as [| x a IH]; cbn; [reflexivity | rewrite IH; reflexivity]. Qed.

Lemma cut_blank_shorter s r :
  cut_blank s = Some r -> (String.length r < String.length s)%nat.
Proof.
  intros H. destruct (cut_some _ _ _ H) as (w & Hw & ->).
  rewrite length_append. apply whitespace_nonempty in Hw.
  destruct w; [discriminate | cbn; lia].
Qed.

Lemma append_inv_head (a r r' : string) : a ++ r = a ++ r' -> r = r'.
Proof.
  induction a as [| x a IH]; cbn [append]; [auto |]. intros [= H]. auto.
Qed.

Lemma append_comparable (a b r r' : string) :
  a ++ r = b ++ r' -> exists x, a = b ++ x \/ b = a ++ x.
Proof.
  revert b. induction a as [| x a IH]; intros b; cbn [append].
  - intros _. exists b. right. reflexivity.
  - destruct b as [| y b]; cbn [append].
    + intros _. exists (String x a). left. reflexivity.
    + intros [= <- H]. destruct (IH b H) as (z & [-> | ->]); exists z; auto.
Qed.

(** Whitespace characters are encoded so that none starts another. *)
Lemma whitespace_prefix_free w w' x :
  In w whitespace -> In w' whitespace -> w = w' ++ x -> x = "".
Proof.
  intros Hw Hw' E.
  assert (F : forallb (fun w =>
                forallb (fun w' => match after w' w with
                                   | Some (String _ _) => false
                                   | _ => true
                                   end) whitespace) whitespace = true)
    by (vm_compute; reflexivity).
  rewrite forallb_forall in F. specialize (F w Hw).
  rewrite forallb_forall in F. specialize (F w' Hw').
  apply after_spec in E. rewrite E in F. destruct x; [reflexivity | discriminate].
Qed.

Lemma cut_blank_iff s r :
  cut_blank s = Some r <-> exists w, In w whitespace /\ s = w ++ r.
Proof.
  split; [apply cut_some |].
  intros (w & Hw & ->). unfold cut_blank.
  destruct (cut whitespace (w ++ r)) as [r' |] eqn:E.
  - destruct (cut_some _ _ _ E) as (w' & Hw' & E').
    destruct (append_comparable _ _ _ _ E') as (x & [Hx | Hx]).
    + pose proof (whitespace_prefix_free _ _ _ Hw Hw' Hx) as ->.
      rewrite append_empty_r in Hx. subst w'.
      apply append_inv_head in E'. congruence.
    + pose proof (whitespace_prefix_free _ _ _ Hw' Hw Hx) as ->.
      rewrite append_empty_r in Hx. subst w'.
      apply append_inv_head in E'. congruence.
  - exfalso. exact (cut_none _ _ E w r Hw eq_refl).
Qed.

Lemma cut_blank_append s r t :
  cut_blank s = Some r -> cut_blank (s ++ t) = Some (r ++ t).
Proof.
  intros H. apply cut_blank_iff in H. destruct H as (w & Hw & ->).
  apply cut_blank_iff. exists w. split; [exact Hw | apply append_assoc_string].
Qed.

Lemma lstrip_from_head fuel : forall s,
  (String.length s <= fuel)%nat -> cut_blank (lstrip_from fuel s) = None.
Proof.
  induction fuel as [| fuel IH]; intros s Hl; cbn [lstrip_from].
  - destruct s; [reflexivity | cbn in Hl; lia].
  - destruct (cut_blank s) as [r |] eqn:E; [| exact E].
    apply IH. apply cut_blank_shorter in E. lia.
Qed.

Lemma lstrip_from_enough fuel : forall fuel' s,
  (String.length s <= fuel)%nat -> (String.length s <= fuel')%nat ->
  lstrip_from fuel s = lstrip_from fuel' s.
Proof.
  induction fuel as [| fuel IH]; intros [| fuel'] s Hl Hl'; cbn [lstrip_from];
    try reflexivity.
  - destruct s; [reflexivity | cbn in Hl; lia].
  - destruct s; [reflexivity | cbn in Hl'; lia].
  - destruct (cut_blank s) as [r |] eqn:E; [| reflexivity].
    apply cut_blank_shorter in E. apply IH; lia.
Qed.

Lemma lstrip_head s : cut_blank (lstrip s) = None.
Proof. apply lstrip_from_head. lia. Qed.

Lemma lstrip_cut s r : cut_blank s = Some r -> lstrip s = lstrip r.
Proof.
  intros E. pose proof (cut_blank_shorter _ _ E) as Hl. unfold lstrip.
  destruct (String.length s) as [| n] eqn:En; [lia |].
  cbn [lstrip_from]. rewrite E. apply lstrip_from_enough; lia.
Qed.

Lemma lstrip_none s : cut_blank s = None -> lstrip s = s.
Proof.
  intros E. unfold lstrip. destruct (String.length s); cbn [lstrip_from];
    [| rewrite E]; reflexivity.
Qed.

Lemma blank_only_none s : cut_blank s = None -> blank_only s = true -> s = "".
Proof.
  intros E. unfold blank_only. rewrite (lstrip_none _ E).
  destruct s; [reflexivity | discriminate].
Qed.

Lemma blank_only_append a : forall b,
  blank_only a = true -> blank_only b = true -> blank_only (a ++ b) = true.
Proof.
  remember (String.length a) as n eqn:En. revert a En.
  induction n as [n IH] using lt_wf_ind. intros a En b Ha Hb.
  destruct (cut_blank a) as [r |] eqn:E.
  - unfold blank_only in Ha |- *.
    rewrite (lstrip_cut _ _ (cut_blank_append _ _ b E)).
    rewrite (lstrip_cut _ _ E) in Ha.
    apply cut_blank_shorter in E.
    apply (IH (String.length r)); [lia | reflexivity | exact Ha | exact Hb].
  - rewrite (blank_only_none _ E Ha). exact Hb.
Qed.

Lemma whitespace_blank_only w : In w whitespace -> blank_only w = true.
Proof.
  intros H.
  assert (F : forallb blank_only whitespace = true) by (vm_compute; reflexivity).
  rewrite forallb_forall in F. apply F, H.
Qed.

Lemma rstrip_rest s : exists b, s = rstrip s ++ b /\ blank_only b = true.
Proof.
  induction s as [| c s (b & IH & Hb)]; [exists ""; split; reflexivity |].
  cbn [rstrip]. destruct (blank_only (String c s)) eqn:E.
  - exists (String c s). split; [reflexivity | exact E].
  - exists b. cbn [append]. rewrite <- IH. split; [reflexivity | exact Hb].
Qed.

(** Nothing that holds whitespace only is left at the end. *)
Lemma rstrip_end s a b :
  rstrip s = a ++ b -> blank_only b = true -> b = "".
Proof.
  revert a. induction s as [| c s IH]; intros a; cbn [rstrip].
  - destruct a; [cbn [append]; auto | discriminate].
  - destruct (blank_only (String c s)) eqn:E.
    + destruct a; [cbn [append]; auto | discriminate].
    + destruct a as [| x a]; cbn [append].
      * intros <- Hb. exfalso.
        destruct (rstrip_rest s) as (b' & Hs & Hb').
        pose proof (blank_only_append _ _ Hb Hb') as H.
        cbn [append] in H. rewrite <- Hs in H. congruence.
      * intros [= _ H]. apply (IH _ H).
Qed.

Lemma rstrip_fixed t :
  (forall a b, t = a ++ b -> blank_only b = true -> b = "") -> rstrip t = t.
Proof.
  induction t as [| c t IH]; intros H; [reflexivity |].
  cbn [rstrip]. destruct (blank_only (String c t)) eqn:E.
  - discriminate (H "" (String c t) eq_refl E).
  - f_equal. apply IH. intros a b -> Hb. apply (H (String c a) b eq_refl Hb).
Qed.

Lemma rstrip_idem s : rstrip (rstrip s) = rstrip s.
Proof. apply rstrip_fixed. intros a b. apply rstrip_end. Qed.

Lemma strip_head s : cut_blank (strip s) = None.
Proof.
  unfold strip. destruct (cut_blank (rstrip (lstrip s))) as [r |] eqn:E; [| reflexivity].
  destruct (rstrip_rest (lstrip s)) as (b & Hs & _).
  pose proof (cut_blank_append _ _ b E) as H. rewrite <- Hs, lstrip_head in H.
  discriminate.
Qed.

Lemma strip_idem s : strip (strip s) = strip s.
Proof.
  unfold strip at 1. rewrite (lstrip_none _ (strip_head s)).
  unfold strip. apply rstrip_idem.
Qed.

Lemma strip_clean s : nonempty (strip s) = true -> clean (strip s).
Proof.
  intros Hne. split; [exact Hne |]. split; [apply strip_idem |]. split.
  - apply cut_blank_starts, strip_head.
  - intros (w & r & Hw & E). unfold strip in E.
    pose proof (rstrip_end _ _ _ E (whitespace_blank_only _ Hw)) as ->.
    apply whitespace_nonempty in Hw. discriminate.
Qed.

Lemma stripped_clean pieces : Forall clean (stripped pieces).
Proof.
  unfold stripped. induction pieces as [| p pieces IH]; cbn [filter map]; [constructor |].
  destruct (nonempty (strip p)) eqn:E; [| exact IH].
  cbn [map]. constructor; [| exact IH]. apply strip_clean, E.
Qed.

Lemma stripped_app l l' : stripped (l ++ l') = (stripped l ++ stripped l')%list.
Proof. unfold stripped. rewrite filter_app, map_app. reflexivity. Qed.

Lemma extend_categories_clean items : forall acc,
  Forall clean acc -> Forall clean (fold_left extend_categories items acc).
Proof.
  induction items as [| item items IH]; intros acc H; cbn [fold_left]; [exact H |].
  apply IH. destruct item; cbn [extend_categories]; try exact H;
    apply Forall_app; split; try exact H; apply stripped_clean.
Qed.

Lemma read_categories_clean py_repr c :
  Forall clean (guarded (read_categories py_repr c) []).
Proof.
  unfold read_categories.
  destruct (truthy (get c "CATEGORIES" PNone)); [| constructor].
  destruct (get c "CATEGORIES" PNone); cbn [guarded]; try constructor;
    try apply stripped_clean.
  - destruct (decode_utf8 b); cbn [try_except bind guarded]; apply stripped_clean.
  - apply extend_categories_clean. constructor.
Qed.

(** X3. Every category of a normalised event is a non-empty text that
    [strip] leaves as it is: no whitespace character, of ASCII or not,
    starts it and none ends it, whatever shape the CATEGORIES property
    had. *)
Theorem categories_are_trimmed_and_non_empty
        (py_repr : pyval -> string) (c : Component) (e : NormalizedEvent) :
  extract_event_details py_repr c = Ok e ->
  Forall (fun category =>
            nonempty category = true /\ strip category = category
            /\ ~ starts_blank category /\ ~ ends_blank category)
         (categories e).
Proof.
  intros He. pose proof (extract_event_details_cases py_repr c) as H.
  destruct (date_text _) in H; [destruct (date_text _) in H |];
    rewrite H in He; injection He as <-;
    cbn [categories full_event minimal_event]; try constructor.
  apply read_categories_clean.
Qed.

(** *** Comma-separated text and lists of texts *)

Lemma split_not_nil sep s : split sep s <> [].
Proof.
  destruct s as [| c s]; cbn [split]; [discriminate |].
  destruct (Ascii.eqb c sep); [discriminate |].
  destruct (split sep s); discriminate.
Qed.

Lemma split_app_sep sep a b :
  split sep (a ++ String sep b) = (split sep a ++ split sep b)%list.
Proof.
  induction a as [| c a IH]; cbn [append split].
  - rewrite Ascii.eqb_refl. reflexivity.
  - destruct (Ascii.eqb c sep); [rewrite IH; reflexivity |].
    rewrite IH. destruct (split sep a) as [| p ps] eqn:E; [| reflexivity].
    exfalso. exact (split_not_nil sep a E).
Qed.

Lemma split_concat (l : list string) :
  l <> [] -> split "," (String.concat "," l) = flat_map (split ",") l.
Proof.
  induction l as [| x l IH]; [contradiction |]. intros _.
  destruct l as [| y l].
  - cbn [String.concat flat_map]. rewrite app_nil_r. reflexivity.
  - change (String.concat "," (x :: y :: l))
      with (x ++ String "," (String.concat "," (y :: l))).
    rewrite split_app_sep, IH by discriminate. reflexivity.
Qed.

Lemma extend_categories_texts (l : list string) : forall acc,
  fold_left extend_categories (map PStr l) acc
  = (acc ++ stripped (flat_map (split ",") l))%list.
Proof.
  induction l as [| x l IH]; intros acc; cbn [map fold_left flat_map].
  - rewrite app_nil_r. reflexivity.
  - rewrite IH. cbn [extend_categories]. rewrite stripped_app, app_assoc. reflexivity.
Qed.

Lemma get_first_other n k v rest subs key default :
  String.eqb k key = false ->
  get (mkComponent n ((k, v) :: rest) subs) key default
  = get (mkComponent n rest subs) key default.
Proof. intros H. unfold get. cbn [props lookup]. rewrite H. reflexivity. Qed.

Lemma get_first_same n k v rest subs default :
  get (mkComponent n ((k, v) :: rest) subs) k default = v.
Proof. unfold get. cbn [props lookup]. rewrite String.eqb_refl. reflexivity. Qed.

(** X4. A CATEGORIES property given as a list of texts is normalised
    like the single text that joins them with commas: the two records
    give the same event. *)
Theorem categories_list_is_joined_text
        (py_repr : pyval -> string) (n : string) (l : list string)
        (rest : list (string * pyval)) (subs : list Component) :
  extract_event_details py_repr
    (mkComponent n (("CATEGORIES", PList (map PStr l)) :: rest) subs)
  = extract_event_details py_repr
      (mkComponent n (("CATEGORIES", PStr (String.concat "," l)) :: rest) subs).
Proof.
  assert (Hcat :
            read_categories py_repr
              (mkComponent n (("CATEGORIES", PList (map PStr l)) :: rest) subs)
            = read_categories py_repr
                (mkComponent n (("CATEGORIES", PStr (String.concat "," l)) :: rest) subs)).
  { unfold read_categories. rewrite !get_first_same.
    destruct l as [| x l]; [reflexivity |].
    cbn [truthy map].
    change (PStr x :: map PStr l) with (map PStr (x :: l)).
    rewrite extend_categories_texts. cbn [app].
    rewrite <- (split_concat (x :: l)) by discriminate.
    destruct (String.concat "," (x :: l)); reflexivity. }
  unfold extract_event_details, minimal_event, read_date_time, read_geo.
  rewrite Hcat. rewrite !get_first_other by reflexivity. reflexivity.
Qed.

(** *** GEO given as text *)

Lemma float_one_char c :
  parse_float is_space (String c "")
  = if is_digit c then Ok (float_of_int (Z.of_N (digit_value c)))
    else Raise (ValueError ("could not convert string to float: " ++ String c "")).
Proof. destruct c as [[] [] [] [] [] [] [] []]; reflexivity. Qed.

(** X5. For a GEO value that is a text starting with two ASCII
    characters only these two count: the field is present exactly when
    both are decimal digits, and then holds these two digits as
    latitude and longitude; the rest of the text is not looked at. *)
Theorem geo_text_uses_first_two_characters
        (c : Component) (a b : ascii) (rest : string) :
  (code a < 128)%N -> (code b < 128)%N ->
  get c "GEO" PNone = PStr (String a (String b rest)) ->
  guarded (read_geo c) None
  = if is_digit a && is_digit b
    then Some (GeoPoint (float_of_int (Z.of_N (digit_value a)))
                        (float_of_int (Z.of_N (digit_value b))))
    else None.
Proof.
  intros _ _ H. unfold read_geo. rewrite H.
  cbn [truthy nonempty has_latitude_longitude has_iter py_len bind String.length].
  destruct (Z.leb_spec 2 (Z.of_nat (S (S (String.length rest))))); [| lia].
  cbn [getitem String.get bind py_float]. rewrite !float_one_char.
  destruct (is_digit a), (is_digit b); reflexivity.
Qed.

(** ** Feed cache: requests over time *)

Lemma apart_trans t t' t'' : apart t t' -> apart t' t'' -> apart t t''.
Proof. unfold apart, cache_duration. lia. Qed.

Lemma not_fresh_apart now cache t cal :
  last_fetch cache = Some t -> data cache = Some cal ->
  fresh now cache = false -> apart t now.
Proof.
  unfold fresh, apart. intros -> ->. intros H. apply Z.leb_gt in H. lia.
Qed.

Lemma get_times_apart calls : forall cache,
  (last_fetch cache = None <-> data cache = None) ->
  Forall (fun c => raises (fst (attempt (snd c))) = false) calls ->
  StronglySorted apart (get_times cache calls)
  /\ (forall t, last_fetch cache = Some t -> Forall (apart t) (get_times cache calls)).
Proof.
  induction calls as [| [now up] calls IH]; intros cache Hinv Hok;
    cbn [get_times fst snd].
  - split; [constructor | intros; constructor].
  - apply Forall_cons_iff in Hok. destruct Hok as [Hup Hok]. cbn [snd] in Hup.
    destruct (fresh now cache) eqn:F.
    + destruct (fetch_calendar_data_fresh now up cache F) as (cal & _ & ->).
      cbn [effects_of cache_of fst snd existsb]. apply IH; assumption.
    + rewrite (fetch_calendar_data_not_fresh now up cache F), refresh_effects.
      pose proof (refresh_outcome now up cache) as H.
      destruct (attempt up) as [[cal | e] log]; [| discriminate].
      rewrite H. cbn [cache_of fst snd].
      destruct (IH (Cache (Some now) (Some cal))) as [Hs Ha];
        [split; discriminate | exact Hok |].
      specialize (Ha now eq_refl).
      split; [constructor; assumption |].
      intros t Ht.
      destruct (data cache) as [old |] eqn:Ed;
        [| assert (last_fetch cache = None) by (apply Hinv; reflexivity); congruence].
      pose proof (not_fresh_apart now cache t old Ht Ed F) as Hnow.
      constructor; [exact Hnow |].
      eapply Forall_impl; [| exact Ha].
      intros g. apply apart_trans, Hnow.
Qed.

(** X6. While the upstream answers every request, the service asks it
    at most once per cache duration: over any sequence of calls since the
    start, any two requests are more than one hour apart on the
    service's clock. *)
Theorem requests_are_an_hour_apart (calls : list call) :
  Forall (fun c => raises (fst (attempt (snd c))) = false) calls ->
  StronglySorted apart (get_times initial_cache calls).
Proof.
  intros Hok. apply get_times_apart; [| exact Hok].
  cbn. split; reflexivity.
Qed.

(** X7. Whatever the cache holds was served: after any sequence of calls
    since the start, a document in the cache is the one parsed from the
    answer to one of these calls, and the stored fetch time is the clock
    reading of that very call. *)
Theorem cached_document_was_served (calls : list call) (t : Z) (cal : Component) :
  last_fetch (fst (run calls)) = Some t ->
  data (fst (run calls)) = Some cal ->
  exists up, In (t, up) calls /\ fst (attempt up) = Ok cal.
Proof.
  intros Ht Hd.
  destruct (run_from_provenance calls (initial_cache, false) t cal Ht Hd)
    as [[H _] | H]; [discriminate H | exact H].
Qed.

(** X8. What one call does to the outside world: it requests the feed
    exactly when the snapshot is not fresh, then once and from the
    calendar address only; it parses only the body of an answer whose
    status check passed; and a call that does not request prints
    nothing. *)
Theorem effects_of_one_call (now : Z) (up : upstream) (cache : calendar_cache) :
  let log := effects_of (fetch_calendar_data now up cache) in
  existsb is_http_get log = negb (fresh now cache)
  /\ (List.length (filter is_http_get log) <= 1)%nat
  /\ (forall url, In (HttpGet url) log -> url = CALENDAR_URL)
  /\ (forall body, In (IcalParse body) log ->
        exists response, client_get up = Ok response
                         /\ raise_for_status response = Ok tt
                         /\ text response = body)
  /\ (fresh now cache = true -> log = []).
Proof.
  intros log. unfold log. clear log.
  destruct (fresh now cache) eqn:F.
  - destruct (fetch_calendar_data_fresh now up cache F) as (cal & _ & ->).
    cbn [effects_of snd existsb filter List.length negb In].
    repeat split; try contradiction. lia.
  - rewrite (fetch_calendar_data_not_fresh now up cache F).
    split; [apply refresh_effects |].
    unfold refresh, attempt.
    destruct (client_get up) as [response | e1];
      [destruct (raise_for_status response) as [[] | e2] eqn:Es;
       [destruct (from_ical up (text response)) as [cal | e3] |] |];
      destruct (data cache);
      cbn [effects_of snd app filter is_http_get List.length In];
      (split; [lia |]); (split; [| split; [| discriminate]]);
      intros x Hx; decompose [or] Hx; try discriminate; try contradiction;
      match goal with E : _ = _ x |- _ => injection E as <- end;
      eauto.
Qed.

(** ** Text order and calendar order *)

Lemma compare_digit_char x y :
  Ascii.compare (digit_char x) (digit_char y) = (x mod 10 ?= y mod 10).
Proof.
  unfold Ascii.compare, digit_char.
  pose proof (Z.mod_pos_bound x 10 eq_refl) as Hx.
  pose proof (Z.mod_pos_bound y 10 eq_refl) as Hy.
  rewrite !N_ascii_embedding by lia.
  rewrite <- N2Z.inj_compare, !N2Z.inj_add, !Z2N.id by lia.
  apply Z.add_compare_mono_l.
Qed.

Lemma compare_cons a s b t :
  String.compare (String a s) (String b t)
  = match Ascii.compare a b with
    | Eq => String.compare s t
    | c => c
    end.
Proof. reflexivity. Qed.

(** Two printed digits compare like the number below one hundred. *)
Lemma compare_pad2 n n' s t :
  String.compare (pad2 n ++ s) (pad2 n' ++ t)
  = match n mod 100 ?= n' mod 100 with
    | Eq => String.compare s t
    | c => c
    end.
Proof.
  unfold pad2. cbn [append]. rewrite !compare_cons, !compare_digit_char.
  destruct (Z.compare_spec ((n / 10) mod 10) ((n' / 10) mod 10));
    destruct (Z.compare_spec (n mod 10) (n' mod 10));
    destruct (Z.compare_spec (n mod 100) (n' mod 100));
    try reflexivity; exfalso; Z.div_mod_to_equations; lia.
Qed.

Lemma pad4_pad2 n : pad4 n = pad2 (n / 100) ++ pad2 n.
Proof.
  unfold pad4, pad2. cbn [append].
  rewrite Z.div_div by lia. reflexivity.
Qed.

Lemma compare_pad4 n n' s t :
  0 <= n <= 9999 -> 0 <= n' <= 9999 ->
  String.compare (pad4 n ++ s) (pad4 n' ++ t)
  = match n ?= n' with
    | Eq => String.compare s t
    | c => c
    end.
Proof.
  intros Hn Hn'. rewrite !pad4_pad2.
  rewrite !append_assoc_string.
  rewrite !compare_pad2.
  destruct (Z.compare_spec ((n / 100) mod 100) ((n' / 100) mod 100));
    destruct (Z.compare_spec (n mod 100) (n' mod 100));
    destruct (Z.compare_spec n n');
    try reflexivity; exfalso; Z.div_mod_to_equations; lia.
Qed.

Lemma strftime_ymd_compare a b :
  printable a -> printable b ->
  String.compare (strftime_ymd a) (strftime_ymd b) = date_compare a b.
Proof.
  intros (Hy & Hm & Hd) (Hy' & Hm' & Hd'). unfold strftime_ymd, date_compare.
  rewrite !year_text_pad4 by lia.
  rewrite compare_pad4 by lia.
  destruct (year a ?= year b); try reflexivity.
  cbn [append]. rewrite compare_cons. cbn [Ascii.compare N_of_ascii N_of_digits N.compare
    N.add N.mul Pos.compare Pos.compare_cont Pos.add Pos.mul].
  rewrite compare_pad2, !Z.mod_small by lia.
  destruct (month a ?= month b); try reflexivity.
  cbn [append]. rewrite compare_cons. cbn [Ascii.compare N_of_ascii N_of_digits N.compare
    N.add N.mul Pos.compare Pos.compare_cont Pos.add Pos.mul].
  rewrite <- (append_empty_r (pad2 (day a))), <- (append_empty_r (pad2 (day b))).
  rewrite compare_pad2, !Z.mod_small by lia.
  destruct (day a ?= day b); reflexivity.
Qed.

(** X9. Comparing the printed dates as text is comparing the dates: for
    dates with a year of four digits, from 1000 to 9999, two printed
    dates compare like the dates themselves, so an event is inside the
    window of an upcoming, search or category query exactly when its
    date is not before today and not after the last day. *)
Theorem window_is_calendar_range
        (today finish d : date) (e : NormalizedEvent) :
  printable today -> printable finish -> printable d ->
  start_date e = Some (strftime_ymd d) ->
  String.compare (strftime_ymd today) (strftime_ymd d) = date_compare today d
  /\ (in_window (strftime_ymd today) (strftime_ymd finish) e = true
      <-> date_compare today d <> Gt /\ date_compare d finish <> Gt).
Proof.
  intros Ht Hf Hd He. split; [apply strftime_ymd_compare; assumption |].
  unfold in_window. rewrite He.
  replace (nonempty (strftime_ymd d)) with true by (symmetry; apply strftime_ymd_nonempty).
  cbn [andb]. unfold String.leb.
  rewrite !strftime_ymd_compare by assumption.
  destruct (date_compare today d), (date_compare d finish); cbn;
    split; try easy; intros [? ?]; congruence.
Qed.

(** ** Queries as refinements of the upcoming window *)

Lemma filter_andb {A} (p q : A -> bool) (l : list A) :
  filter (fun x => p x && q x) l = filter q (filter p l).
Proof.
  induction l as [| x l IH]; cbn [filter]; [reflexivity |].
  destruct (p x); cbn [andb filter]; [| exact IH].
  destruct (q x); rewrite IH; reflexivity.
Qed.

Lemma contains_empty s : contains "" s = true.
Proof. destruct s; reflexivity. Qed.

(** X10. A search and a category query return the events of the upcoming
    query for the same number of days, filtered further by the text or
    the category, and fail when it fails.  A search for the empty text,
    which [str.lower()] leaves empty, returns the upcoming events
    themselves; a category query never returns an event without
    categories. *)
Theorem search_and_category_refine_upcoming
        (py_lower : string -> string)
        (all_events : list NormalizedEvent) (today : date) (days : Z) :
  (forall query,
      search_matching_events py_lower all_events today query days
      = (upcoming <- upcoming_events all_events today days ;;
         Ok (filter (fun event =>
                       contains (py_lower query) (py_lower (summary event))
                       || contains (py_lower query) (py_lower (description event)))
                    upcoming)))
  /\ (forall category,
         category_events py_lower all_events today category days
         = (upcoming <- upcoming_events all_events today days ;;
            Ok (filter (fun event =>
                          existsb (fun cat => contains (py_lower category) (py_lower cat))
                                  (categories event))
                       upcoming)))
  /\ (py_lower "" = "" ->
      search_matching_events py_lower all_events today "" days
      = upcoming_events all_events today days)
  /\ (forall category selected,
         category_events py_lower all_events today category days = Ok selected ->
         Forall (fun event => categories event <> []) selected).
Proof.
  unfold search_matching_events, category_events, upcoming_events.
  destruct (add_days today days) as [end_date | e]; cbn [bind].
  - split; [| split; [| split]].
    + intros query. rewrite filter_andb. reflexivity.
    + intros category. rewrite filter_andb. reflexivity.
    + intros ->. f_equal. apply filter_ext. intros event.
      rewrite contains_empty, andb_true_r. reflexivity.
    + intros category selected [= <-]. apply Forall_forall.
      intros event [_ H]%filter_In. apply andb_true_iff in H. destruct H as [_ H].
      destruct (categories event); [discriminate | discriminate].
  - repeat split; try reflexivity. discriminate.
Qed.

(** ** A feed that is already in order *)

Lemma insert_event_first x l : Forall (key_le x) l -> insert_event x l = x :: l.
Proof.
  destruct l as [| y l]; [reflexivity |]. intros H.
  apply Forall_inv in H. cbn [insert_event].
  rewrite (proj2 (ltb_false_leb (sort_key y) (sort_key x)) H). reflexivity.
Qed.

Lemma sort_events_sorted_id l : StronglySorted key_le l -> sort_events l = l.
Proof.
  induction 1 as [| x l Hs IH Hx]; cbn [sort_events]; [reflexivity |].
  rewrite IH. apply insert_event_first, Hx.
Qed.

(** X11. A calendar whose events already stand in non-decreasing order
    of start date (undated ones counting as 9999-12-31) is returned in
    the order of the feed; in particular sorting the output again
    changes nothing. *)
Theorem ordered_feed_keeps_its_order
        (py_repr : pyval -> string) (cal : Component) (unsorted : list NormalizedEvent) :
  collect_events py_repr (walk cal) = Ok unsorted ->
  (StronglySorted key_le unsorted -> events_of_calendar py_repr cal = Ok unsorted)
  /\ (forall events, events_of_calendar py_repr cal = Ok events ->
                     sort_events events = events).
Proof.
  intros Hc. unfold events_of_calendar. rewrite Hc. cbn [bind]. split.
  - intros Hs. rewrite (sort_events_sorted_id _ Hs). reflexivity.
  - intros events [= <-]. apply sort_events_sorted_id, sort_events_sorted.
Qed.

(** ** The category listing *)

Lemma ltb_irrefl a : String.ltb a a = false.
Proof. unfold String.ltb. rewrite compare_refl. reflexivity. Qed.

Lemma leb_neq_ltb a b : String.leb a b = true -> a <> b -> String.ltb a b = true.
Proof.
  unfold String.leb, String.ltb. destruct (String.compare a b) eqn:E; try easy.
  intros _ H. exfalso. apply H, String.compare_eq_iff, E.
Qed.

Lemma text_lt_trans a b c : text_lt a b -> text_lt b c -> text_lt a c.
Proof.
  unfold text_lt. intros Hab Hbc. apply leb_neq_ltb.
  - eapply leb_trans; apply ltb_leb; eassumption.
  - intros ->. apply ltb_not_leb in Hab. apply ltb_leb in Hbc. congruence.
Qed.

Lemma insert_string_perm x l : Permutation (x :: l) (insert_string x l).
Proof.
  induction l as [| y l IH]; cbn [insert_string]; [reflexivity |].
  destruct (String.ltb y x); [| reflexivity].
  rewrite perm_swap. apply perm_skip, IH.
Qed.

Lemma sort_strings_perm l : Permutation l (sort_strings l).
Proof.
  induction l as [| x l IH]; cbn [sort_strings]; [reflexivity |].
  rewrite <- insert_string_perm. apply perm_skip, IH.
Qed.

Lemma insert_string_strict x l :
  StronglySorted text_lt l -> ~ In x l -> StronglySorted text_lt (insert_string x l).
Proof.
  induction 1 as [| y l Hs IH Hy]; intros Hx; cbn [insert_string].
  - constructor; constructor.
  - destruct (String.ltb y x) eqn:E.
    + constructor; [apply IH; intros H; apply Hx; right; exact H |].
      rewrite <- insert_string_perm. constructor; [exact E | exact Hy].
    + assert (Hxy : text_lt x y).
      { apply leb_neq_ltb; [apply ltb_false_leb, E |].
        intros ->. apply Hx. left. reflexivity. }
      constructor; [constructor; assumption |].
      constructor; [exact Hxy |].
      eapply Forall_impl; [| exact Hy]. intros z. apply text_lt_trans, Hxy.
Qed.

Lemma sort_strings_strict l : NoDup l -> StronglySorted text_lt (sort_strings l).
Proof.
  induction 1 as [| x l Hx Hn IH]; cbn [sort_strings]; [constructor |].
  apply insert_string_strict; [exact IH |].
  intros H. apply Hx. apply (Permutation_in _ (Permutation_sym (sort_strings_perm l))), H.
Qed.

(** A strictly increasing list is determined by its members. *)
Lemma strict_sorted_unique l1 : forall l2,
  StronglySorted text_lt l1 -> StronglySorted text_lt l2 ->
  (forall x, In x l1 <-> In x l2) -> l1 = l2.
Proof.
  induction l1 as [| a l1 IH]; intros [| b l2] H1 H2 Hm.
  - reflexivity.
  - exfalso. apply (proj2 (Hm b)). left. reflexivity.
  - exfalso. apply (proj1 (Hm a)). left. reflexivity.
  - apply StronglySorted_inv in H1, H2.
    destruct H1 as [H1 Ha], H2 as [H2 Hb].
    rewrite Forall_forall in Ha, Hb.
    assert (a = b) as <-.
    { destruct (proj1 (Hm a) (or_introl eq_refl)) as [E | Hin]; [auto |].
      destruct (proj2 (Hm b) (or_introl eq_refl)) as [E | Hin']; [auto |].
      pose proof (text_lt_trans _ _ _ (Ha _ Hin') (Hb _ Hin)) as C.
      unfold text_lt in C. rewrite ltb_irrefl in C. discriminate. }
    f_equal. apply IH; try assumption.
    intros x. split; intros Hin.
    + destruct (proj1 (Hm x) (or_intror Hin)) as [<- | H]; [| exact H].
      pose proof (Ha _ Hin) as C. unfold text_lt in C.
      rewrite ltb_irrefl in C. discriminate.
    + destruct (proj2 (Hm x) (or_intror Hin)) as [<- | H]; [| exact H].
      pose proof (Hb _ Hin) as C. unfold text_lt in C.
      rewrite ltb_irrefl in C. discriminate.
Qed.

Lemma set_add_In x s y : In y (set_add x s) <-> y = x \/ In y s.
Proof.
  unfold set_add. destruct (existsb (String.eqb x) s) eqn:E; cbn [In].
  - split; [auto |]. intros [-> | H]; [| exact H].
    apply existsb_exists in E. destruct E as (z & Hz & Ez).
    apply String.eqb_eq in Ez. subst. exact Hz.
  - split; intros [H | H]; auto.
Qed.

Lemma set_add_NoDup x s : NoDup s -> NoDup (set_add x s).
Proof.
  intros H. unfold set_add. destruct (existsb (String.eqb x) s) eqn:E; [exact H |].
  constructor; [| exact H]. intros Hin.
  assert (existsb (String.eqb x) s = true); [| congruence].
  apply existsb_exists. exists x. split; [exact Hin | apply String.eqb_refl].
Qed.

Lemma add_categories_spec cats : forall acc,
  NoDup acc ->
  NoDup (fold_left add_category cats acc)
  /\ forall y, In y (fold_left add_category cats acc)
               <-> In y acc \/ (In y cats /\ nonempty y = true).
Proof.
  induction cats as [| c cats IH]; intros acc Hn; cbn [fold_left].
  - split; [exact Hn |]. intros y. cbn [In]. tauto.
  - assert (Hn' : NoDup (add_category acc c)).
    { unfold add_category. destruct (nonempty c); [apply set_add_NoDup |]; exact Hn. }
    destruct (IH _ Hn') as [IH1 IH2]. split; [exact IH1 |].
    intros y. rewrite IH2. unfold add_category. cbn [In].
    destruct (nonempty c) eqn:E.
    + rewrite set_add_In. split.
      * intros [[-> | H] | [H1 H2]]; auto.
      * intros [H | [[<- | H1] H2]]; auto.
    + split.
      * intros [H | [H1 H2]]; auto.
      * intros [H | [[<- | H1] H2]]; auto. congruence.
Qed.

Lemma all_categories_from_spec all_events : forall acc,
  NoDup acc ->
  let result :=
    fold_left (fun acc event => fold_left add_category (categories event) acc)
              all_events acc in
  NoDup result
  /\ forall y, In y result
               <-> In y acc
                   \/ (nonempty y = true
                       /\ exists e, In e all_events /\ In y (categories e)).
Proof.
  induction all_events as [| e all_events IH]; intros acc Hn; cbn [fold_left].
  - split; [exact Hn |]. intros y. split; [auto |].
    intros [H | (_ & e & [] & _)]. exact H.
  - destruct (add_categories_spec (categories e) acc Hn) as [Hn' Hm].
    destruct (IH _ Hn') as [IH1 IH2]. split; [exact IH1 |].
    intros y. rewrite IH2, Hm. cbn [In]. split.
    + intros [[H | [H1 H2]] | (H1 & e' & H2 & H3)]; eauto 6.
    + intros [H | (H1 & e' & [<- | H2] & H3)]; eauto 6.
Qed.

Lemma all_categories_spec all_events :
  NoDup (all_categories all_events)
  /\ forall y, In y (all_categories all_events)
               <-> nonempty y = true
                   /\ exists e, In e all_events /\ In y (categories e).
Proof.
  destruct (all_categories_from_spec all_events [] (NoDup_nil _)) as [H1 H2].
  split; [exact H1 |]. intros y.
  change (all_categories all_events)
    with (fold_left (fun acc event => fold_left add_category (categories event) acc)
                    all_events []).
  rewrite H2. cbn [In]. tauto.
Qed.

(** X12. The category listing is the strictly increasing list, in text
    order, of the non-empty categories that occur in some event: each
    occurs once, none is missing, and the listing does not depend on the
    order of the events.  The tool answers that no categories were found
    exactly when no event has a non-empty category. *)
Theorem category_listing_is_sorted_and_complete (all_events : list NormalizedEvent) :
  StronglySorted text_lt (sorted_categories all_events)
  /\ (forall category,
         In category (sorted_categories all_events)
         <-> nonempty category = true
             /\ exists e, In e all_events /\ In category (categories e))
  /\ (forall all_events',
         Permutation all_events all_events' ->
         sorted_categories all_events' = sorted_categories all_events)
  /\ (categories_text all_events = "No categories found in the calendar."
      <-> forall e category,
            In e all_events -> In category (categories e) -> category = "").
Proof.
  destruct (all_categories_spec all_events) as [Hn Hm].
  assert (Hs : forall l, StronglySorted text_lt (sorted_categories l)).
  { intros l. apply sort_strings_strict, all_categories_spec. }
  assert (Hin : forall l category,
             In category (sorted_categories l)
             <-> nonempty category = true
                 /\ exists e, In e l /\ In category (categories e)).
  { intros l category. rewrite <- (proj2 (all_categories_spec l)).
    unfold sorted_categories. split; apply Permutation_in;
      [apply Permutation_sym |]; apply sort_strings_perm. }
  split; [apply Hs |]. split; [apply Hin |]. split.
  - intros all_events' Hp. apply strict_sorted_unique; try apply Hs.
    intros x. rewrite !Hin. split; intros (H1 & e & H2 & H3);
      (split; [exact H1 |]); exists e; (split; [| exact H3]).
    + apply (Permutation_in _ (Permutation_sym Hp)), H2.
    + apply (Permutation_in _ Hp), H2.
  - unfold categories_text. destruct (all_categories all_events) as [| c cs] eqn:E.
    + split; [| reflexivity]. intros _ e category He Hc.
      destruct category; [reflexivity |]. exfalso.
      apply (proj2 (Hm (String a category))). split; [reflexivity | eauto].
    + split; [discriminate |]. intros H. exfalso.
      destruct (proj1 (Hm c) (or_introl eq_refl)) as (Hne & e & He & Hc).
      rewrite (H e c He Hc) in Hne. discriminate.
Qed.

(** ** Grouping by date *)

Lemma leb_refl (a : string) : String.leb a a = true.
Proof. unfold String.leb. rewrite compare_refl. reflexivity. Qed.

Lemma group_append_keys (P : option string -> Prop) date x groups :
  Forall (fun g => P (fst g)) groups -> P date ->
  Forall (fun g => P (fst g)) (group_append date x groups).
Proof.
  induction 1 as [| [d es] groups Hd Hg IH]; intros Hp; cbn [group_append].
  - constructor; [exact Hp | constructor].
  - destruct (key_eqb d date); constructor; auto.
Qed.

Lemma group_append_wf k x groups :
  start_date x = Some k ->
  Forall group_ok groups -> StronglySorted group_lt groups ->
  Forall (fun g => exists a, fst g = Some a /\ String.leb a k = true) groups ->
  Forall group_ok (group_append (Some k) x groups)
  /\ StronglySorted group_lt (group_append (Some k) x groups)
  /\ List.concat (map snd (group_append (Some k) x groups))
     = (List.concat (map snd groups) ++ [x])%list.
Proof.
  intros Hx. induction groups as [| [d es] groups IH]; intros Hok Hs Hb;
    cbn [group_append].
  - repeat split.
    + constructor; [| constructor]. exists k. cbn [fst snd].
      repeat split; [discriminate | constructor; [exact Hx | constructor]].
    + constructor; constructor.
  - apply Forall_cons_iff in Hok, Hb. destruct Hok as [Hg Hok], Hb as [Hbd Hb].
    apply StronglySorted_inv in Hs. destruct Hs as [Hs Hlt].
    destruct Hg as (a & Ha & Hne & Hes). cbn [fst snd] in Ha, Hne, Hes. subst d.
    destruct Hbd as (a' & [= <-] & Hak).
    cbn [key_eqb]. destruct (String.eqb_spec a k) as [-> | Hneq].
    + assert (groups = []) as ->.
      { destruct groups as [| g groups]; [reflexivity |]. exfalso.
        apply Forall_inv in Hlt, Hb.
        destruct Hlt as (a1 & b & [= <-] & Hb1 & Hab).
        destruct Hb as (b' & Hb2 & Hbk). rewrite Hb1 in Hb2. injection Hb2 as <-.
        apply ltb_not_leb in Hab. congruence. }
      repeat split.
      * constructor; [| constructor]. exists k. cbn [fst snd].
        repeat split; [destruct es; discriminate |].
        apply Forall_app. split; [exact Hes | constructor; [exact Hx | constructor]].
      * constructor; constructor.
      * cbn [map List.concat snd]. rewrite !app_nil_r. reflexivity.
    + destruct (IH Hok Hs Hb) as (IH1 & IH2 & IH3).
      repeat split.
      * constructor; [| exact IH1]. exists a. cbn [fst snd]. auto.
      * constructor; [exact IH2 |].
        apply (group_append_keys
                 (fun key => exists a0 b, Some a = Some a0 /\ key = Some b /\ text_lt a0 b)).
        -- exact Hlt.
        -- exists a, k. repeat split. apply leb_neq_ltb; assumption.
      * cbn [map List.concat snd]. rewrite IH3, app_assoc. reflexivity.
Qed.

Lemma sorted_snoc {A} (R : A -> A -> Prop) l x :
  StronglySorted R (l ++ [x]) -> StronglySorted R l /\ Forall (fun y => R y x) l.
Proof.
  induction l as [| y l IH]; cbn [app]; intros H.
  - split; constructor.
  - apply StronglySorted_inv in H. destruct H as [Hs Hy].
    destruct (IH Hs) as [IH1 IH2]. apply Forall_app in Hy. destruct Hy as [Hy Hx].
    split; constructor; try assumption. apply Forall_inv in Hx. exact Hx.
Qed.

(** In window, an event has a date, and its sort key is that date. *)
Lemma in_window_key t f e :
  in_window t f e = true -> start_date e = Some (sort_key e).
Proof.
  unfold in_window, sort_key. destruct (start_date e) as [s |]; [| discriminate].
  destruct (nonempty s); [reflexivity | discriminate].
Qed.

Lemma events_by_date_sorted t f l :
  Forall (fun e => in_window t f e = true) l -> StronglySorted key_le l ->
  Forall group_ok (events_by_date l)
  /\ StronglySorted group_lt (events_by_date l)
  /\ List.concat (map snd (events_by_date l)) = l.
Proof.
  induction l as [| x l IH] using rev_ind; intros Hw Hs.
  - repeat split; constructor.
  - apply Forall_app in Hw. destruct Hw as [Hw Hx]. apply Forall_inv in Hx.
    apply sorted_snoc in Hs. destruct Hs as [Hs Hle].
    destruct (IH Hw Hs) as (IH1 & IH2 & IH3).
    unfold events_by_date in *. rewrite fold_left_app. cbn [fold_left].
    pose proof (in_window_key _ _ _ Hx) as Hk. rewrite Hk.
    destruct (group_append_wf (sort_key x) x _ Hk IH1 IH2) as (H1 & H2 & H3).
    + rewrite Forall_forall in IH1 |- *. intros g Hg.
      destruct (IH1 g Hg) as (k & Hgk & Hne & Hes). exists k. split; [exact Hgk |].
      destruct (snd g) as [| e es] eqn:Eg; [contradiction |].
      apply Forall_inv in Hes.
      assert (Hin : In e l).
      { rewrite <- IH3. apply in_concat. exists (snd g). split.
        - apply in_map, Hg.
        - rewrite Eg. left. reflexivity. }
      rewrite Forall_forall in Hle, Hw.
      pose proof (Hle e Hin) as Hex. unfold key_le in Hex.
      pose proof (in_window_key _ _ _ (Hw e Hin)) as Hek.
      rewrite Hes in Hek. injection Hek as ->. exact Hex.
    + rewrite H3, IH3. repeat split; assumption.
Qed.

Lemma sort_strings_sorted_id l : StronglySorted text_lt l -> sort_strings l = l.
Proof.
  induction 1 as [| x l Hs IH Hx]; cbn [sort_strings]; [reflexivity |].
  rewrite IH. destruct l as [| y l]; [reflexivity |].
  apply Forall_inv in Hx. cbn [insert_string].
  rewrite (proj2 (ltb_false_leb y x) (ltb_leb _ _ Hx)). reflexivity.
Qed.

Lemma group_keys_texts groups :
  Forall group_ok groups -> StronglySorted group_lt groups ->
  forallb is_text (map fst groups) = true
  /\ map Some (texts (map fst groups)) = map fst groups
  /\ StronglySorted text_lt (texts (map fst groups)).
Proof.
  induction groups as [| [d es] groups IH]; intros Hok Hs.
  - repeat split; constructor.
  - apply Forall_cons_iff in Hok. destruct Hok as [(k & Hk & _) Hok].
    apply StronglySorted_inv in Hs. destruct Hs as [Hs Hlt].
    cbn [fst] in Hk. subst d.
    destruct (IH Hok Hs) as (IH1 & IH2 & IH3).
    unfold texts in *. cbn [map fst forallb is_text flat_map app andb].
    repeat split; [exact IH1 | rewrite IH2; reflexivity |].
    constructor; [exact IH3 |].
    rewrite Forall_forall in Hlt |- *. intros b Hb.
    apply in_flat_map in Hb. destruct Hb as ([b' |] & Hin & Hb); [| contradiction].
    destruct Hb as [<- | []].
    apply in_map_iff in Hin. destruct Hin as (g & Hg & Hin).
    destruct (Hlt g Hin) as (a0 & b0 & [= <-] & Hb0 & Hab).
    cbn [fst] in Hb0. congruence.
Qed.

Lemma sorted_keys_of_groups groups :
  Forall group_ok groups -> StronglySorted group_lt groups ->
  sorted_keys (map fst groups) = Ok (map fst groups).
Proof.
  intros Hok Hs. destruct (group_keys_texts groups Hok Hs) as (H1 & H2 & H3).
  unfold sorted_keys. rewrite H1, (sort_strings_sorted_id _ H3), H2.
  destruct (map fst groups) as [| k [| k' ks]]; reflexivity.
Qed.

Lemma group_of_own_keys groups :
  StronglySorted group_lt groups ->
  map (fun date => (date, group_of date groups)) (map fst groups) = groups.
Proof.
  induction 1 as [| [d es] groups Hs IH Hlt]; [reflexivity |].
  cbn [map fst group_of].
  assert (Hd : key_eqb d d = true).
  { destruct d; cbn [key_eqb]; [apply String.eqb_refl | reflexivity]. }
  rewrite Hd. f_equal. rewrite <- IH at 2.
  apply map_ext_in. intros date Hin.
  apply in_map_iff in Hin. destruct Hin as (g & <- & Hg).
  rewrite Forall_forall in Hlt.
  destruct (Hlt g Hg) as (a & b & Ha & Hb & Hab). cbn [fst] in Ha. subst d.
  rewrite Hb. cbn [key_eqb]. rewrite (ltb_neq _ _ Hab). reflexivity.
Qed.

Lemma digit_of_digit_char n : digit_of (digit_char n) = n mod 10.
Proof.
  unfold digit_of, digit_value, digit_char, code.
  pose proof (Z.mod_pos_bound n 10 eq_refl) as H.
  rewrite N_ascii_embedding by lia. lia.
Qed.

Lemma month_field_pad2 m r :
  1 <= m <= 12 -> month_field (pad2 m ++ String "-" r) = Some (m, r).
Proof.
  intros H.
  assert (C : m = 1 \/ m = 2 \/ m = 3 \/ m = 4 \/ m = 5 \/ m = 6 \/ m = 7 \/ m = 8
              \/ m = 9 \/ m = 10 \/ m = 11 \/ m = 12) by lia.
  decompose [or] C; subst m; reflexivity.
Qed.

Lemma day_field_pad2 d : 1 <= d <= 31 -> day_field (pad2 d) = Some (d, "").
Proof.
  intros H.
  assert (C : d = 1 \/ d = 2 \/ d = 3 \/ d = 4 \/ d = 5 \/ d = 6 \/ d = 7 \/ d = 8
              \/ d = 9 \/ d = 10 \/ d = 11 \/ d = 12 \/ d = 13 \/ d = 14 \/ d = 15
              \/ d = 16 \/ d = 17 \/ d = 18 \/ d = 19 \/ d = 20 \/ d = 21 \/ d = 22
              \/ d = 23 \/ d = 24 \/ d = 25 \/ d = 26 \/ d = 27 \/ d = 28 \/ d = 29
              \/ d = 30 \/ d = 31) by lia.
  decompose [or] C; subst d; reflexivity.
Qed.

Lemma days_in_month_bound y m : 1 <= m <= 12 -> days_in_month y m <= 31.
Proof.
  intros H. unfold days_in_month.
  destruct ((m =? 2) && is_leap y); [lia |].
  assert (C : m = 1 \/ m = 2 \/ m = 3 \/ m = 4 \/ m = 5 \/ m = 6 \/ m = 7 \/ m = 8
              \/ m = 9 \/ m = 10 \/ m = 11 \/ m = 12) by lia.
  decompose [or] C; subst m; cbv; discriminate.
Qed.

Lemma valid_date_fields d :
  valid_date d = true ->
  1 <= year d <= 9999 /\ 1 <= month d <= 12 /\ 1 <= day d <= days_in_month (year d) (month d).
Proof.
  unfold valid_date. rewrite !andb_true_iff, !Z.leb_le. tauto.
Qed.

Lemma check_date_fields_valid d :
  valid_date d = true -> check_date_fields (year d) (month d) (day d) = Ok d.
Proof.
  intros H. apply valid_date_fields in H. destruct H as (Hy & Hm & Hd).
  unfold check_date_fields.
  rewrite (proj2 (Z.leb_le 1 (year d))), (proj2 (Z.leb_le (year d) 9999)) by lia.
  rewrite (proj2 (Z.leb_le 1 (month d))), (proj2 (Z.leb_le (month d) 12)) by lia.
  rewrite (proj2 (Z.leb_le 1 (day d))), (proj2 (Z.leb_le (day d) _)) by lia.
  destruct d; reflexivity.
Qed.

(** A date in range with a year of four digits is read back from its
    text. *)
Lemma strptime_strftime d :
  valid_date d = true -> 1000 <= year d -> strptime_ymd (strftime_ymd d) = Ok d.
Proof.
  intros Hv Hy. pose proof (valid_date_fields d Hv) as (Hy' & Hm & Hd).
  pose proof (days_in_month_bound (year d) (month d) Hm) as Hb.
  unfold strftime_ymd. rewrite (year_text_pad4 _ Hy).
  unfold pad4. unfold pad2 at 1. cbn [append].
  unfold strptime_ymd. cbn [forallb]. rewrite !is_digit_digit_char. cbn [andb].
  rewrite month_field_pad2 by exact Hm.
  rewrite day_field_pad2 by lia.
  rewrite !digit_of_digit_char.
  replace ((year d / 1000) mod 10 * 1000 + (year d / 100) mod 10 * 100
           + (year d / 10) mod 10 * 10 + year d mod 10) with (year d)
    by (Z.div_mod_to_equations; lia).
  apply check_date_fields_valid, Hv.
Qed.

Lemma write_groups_spec groups keys :
  if forallb parses keys
  then write_groups groups keys = Ok (map (fun date => (date, group_of date groups)) keys)
  else raises (write_groups groups keys) = true.
Proof.
  induction keys as [| k keys IH]; [reflexivity |].
  cbn [forallb write_groups map]. unfold parses at 1.
  destruct (strptime_key k) as [d | e]; cbn [raises negb andb bind]; [| reflexivity].
  destruct (forallb parses keys).
  - rewrite IH. reflexivity.
  - destruct (write_groups groups keys); [discriminate | reflexivity].
Qed.

Lemma dated_on_four_digits_parses e :
  dated_on_four_digits e -> parses (start_date e) = true.
Proof.
  intros (d & -> & Hv & Hy). unfold parses. cbn [strptime_key].
  rewrite (strptime_strftime d Hv Hy). reflexivity.
Qed.

Lemma groups_keep_order_sorted t f l :
  Forall (fun e => in_window t f e = true) l -> StronglySorted key_le l ->
  groups_keep_order l.
Proof.
  intros Hw Hs. destruct (events_by_date_sorted t f l Hw Hs) as (H1 & H2 & H3).
  pose proof (sorted_keys_of_groups _ H1 H2) as Hk.
  assert (Hg : groups_in_order l
               = write_groups (events_by_date l) (map fst (events_by_date l))).
  { unfold groups_in_order. rewrite Hk. reflexivity. }
  pose proof (write_groups_spec (events_by_date l) (map fst (events_by_date l))) as Hwr.
  rewrite (group_of_own_keys _ H2) in Hwr.
  unfold groups_keep_order. cbv zeta.
  split; [exact Hk |]. split; [exact H3 |]. split; [exact H2 |]. split; [exact H1 |].
  split; [exact Hg |]. rewrite Hg.
  split; [| split].
  - destruct (forallb parses (map fst (events_by_date l))); [rewrite Hwr |]; auto.
  - intros written Hwritten.
    destruct (forallb parses (map fst (events_by_date l))).
    + congruence.
    + rewrite Hwritten in Hwr. discriminate.
  - intros Hd.
    assert (Hp : forallb parses (map fst (events_by_date l)) = true).
    { apply forallb_forall. intros k Hin.
      apply in_map_iff in Hin. destruct Hin as (g & <- & Hg').
      rewrite Forall_forall in H1. destruct (H1 g Hg') as (a & Ha & Hne & Hes).
      destruct (snd g) as [| e es] eqn:Eg; [contradiction |].
      apply Forall_inv in Hes. rewrite Ha, <- Hes.
      apply dated_on_four_digits_parses.
      rewrite Forall_forall in Hd. apply Hd.
      rewrite <- H3. apply in_concat. exists (snd g). split.
      - apply in_map, Hg'.
      - rewrite Eg. left. reflexivity. }
    rewrite Hp in Hwr. exact Hwr.
Qed.

Lemma StronglySorted_filter_keeps {A} (R : A -> A -> Prop) (p : A -> bool) l :
  StronglySorted R l -> StronglySorted R (filter p l).
Proof.
  induction 1 as [| x l Hs IH Hx]; cbn [filter]; [constructor |].
  destruct (p x); [| exact IH]. constructor; [exact IH |].
  rewrite Forall_forall in Hx |- *. intros y [Hy _]%filter_In. auto.
Qed.

(** X13. Grouping by date does not reorder.  For the events of a
    calendar, the dictionary that the upcoming-events tool and the
    category tool build from their selection holds, read group after
    group, the selected events in the order of the selection; its dates
    are strictly increasing as they stand, so that sorting them changes
    nothing, and each group holds the events of its date.  The loop
    parses each date before it writes the group: it writes these very
    groups when every date parses, as dates in range with a year of four
    digits do, and it ends with the exception of [strptime], which the
    tool turns into its error text, when one does not. *)
Theorem grouping_by_date_keeps_order
        (py_repr : pyval -> string) (py_lower : string -> string) (cal : Component)
        (all_events : list NormalizedEvent) (today : date) (days : Z) :
  events_of_calendar py_repr cal = Ok all_events ->
  (forall selected,
      upcoming_events all_events today days = Ok selected ->
      groups_keep_order selected)
  /\ (forall category selected,
         category_events py_lower all_events today category days = Ok selected ->
         groups_keep_order selected).
Proof.
  intros Hall.
  assert (Hs : StronglySorted key_le all_events).
  { destruct (events_of_calendar_sorted py_repr cal) as (unsorted & _ & _ & He).
    rewrite He in Hall. injection Hall as <-. apply sort_events_sorted. }
  unfold upcoming_events, category_events.
  destruct (add_days today days) as [end_date |]; cbn [bind];
    [| split; intros; discriminate].
  split.
  - intros selected [= <-].
    apply (groups_keep_order_sorted (strftime_ymd today) (strftime_ymd end_date)).
    + apply Forall_forall. intros e [_ H]%filter_In. exact H.
    + apply StronglySorted_filter_keeps, Hs.
  - intros category selected [= <-].
    apply (groups_keep_order_sorted (strftime_ymd today) (strftime_ymd end_date)).
    + apply Forall_forall. intros e [_ H]%filter_In.
      apply andb_true_iff in H. apply H.
    + apply StronglySorted_filter_keeps, Hs.
Qed.

(** ** A window of a single day *)

Lemma leb_antisym_eqb a b :
  String.leb a b && String.leb b a = String.eqb b a.
Proof.
  destruct (String.eqb_spec b a) as [-> | Hne].
  - rewrite leb_refl. reflexivity.
  - destruct (String.leb a b) eqn:E1, (String.leb b a) eqn:E2; try reflexivity.
    exfalso. apply Hne. symmetry. apply String.leb_antisym; assumption.
Qed.

(** X14. When the window ends on the day it starts, as it does for zero
    days, the upcoming-events selection is the selection of the
    today tool. *)
Theorem window_of_one_day_is_today
        (all_events : list NormalizedEvent) (today : date) (days : Z) :
  add_days today days = Ok today ->
  upcoming_events all_events today days = Ok (today_events all_events today).
Proof.
  intros H. unfold upcoming_events, today_events. rewrite H. cbn [bind].
  f_equal. apply filter_ext. intros e. unfold in_window, date_is.
  destruct (start_date e) as [s |]; [| reflexivity].
  rewrite <- andb_assoc, leb_antisym_eqb.
  destruct (String.eqb_spec s (strftime_ymd today)) as [-> | _];
    [rewrite strftime_ymd_nonempty; reflexivity | apply andb_false_r].
Qed.

(** ** The text of the today tool and of the category listing *)

Lemma prefix_append (a b : string) : String.prefix a (a ++ b) = true.
Proof.
  induction a as [| x a IH]; cbn [append String.prefix].
  - destruct b; reflexivity.
  - destruct (ascii_dec x x); [exact IH | contradiction].
Qed.

Lemma fetch_with_document now up cache :
  data cache <> None -> exists cal, outcome_of (fetch_calendar_data now up cache) = Ok cal.
Proof.
  intros Hd. pose proof (fetch_outcome_data now up cache) as H.
  destruct (outcome_of (fetch_calendar_data now up cache)) as [cal | e] eqn:E; [eauto |].
  exfalso. destruct (fresh now cache) eqn:F.
  - destruct (fetch_calendar_data_fresh now up cache F) as (cal & _ & Hf).
    rewrite Hf in E. discriminate.
  - rewrite (fetch_calendar_data_not_fresh now up cache F) in E.
    pose proof (refresh_outcome now up cache) as Hr.
    destruct (attempt up) as [[cal | e'] log].
    + rewrite Hr in E. discriminate.
    + destruct (data cache); [| contradiction].
      destruct Hr as (Hr & _). congruence.
Qed.

Lemma fetch_without_document now up cache cause :
  data cache = None -> fst (attempt up) = Raise cause ->
  outcome_of (fetch_calendar_data now up cache)
  = Raise (Exc "Exception" ("Failed to fetch calendar data: " ++ exn_text cause)).
Proof.
  intros Hd Ha.
  assert (F : fresh now cache = false).
  { unfold fresh. rewrite Hd. destruct (last_fetch cache); reflexivity. }
  rewrite (fetch_calendar_data_not_fresh now up cache F).
  pose proof (refresh_outcome now up cache) as Hr.
  destruct (attempt up) as [[cal | e] log]; [discriminate |].
  cbn [fst] in Ha. injection Ha as ->. rewrite Hd in Hr. rewrite Hr. reflexivity.
Qed.

(** X15. Once the cache holds a document, the today tool and the
    category listing never answer with an error, whatever the network
    does: the one answers that nothing is scheduled or lists the events
    of today, the other answers that there are no categories or lists
    them.  Without a document and with a failing fetch both answer with
    their error prefix followed by "Failed to fetch calendar data: " and
    the cause. *)
Theorem tools_answer_from_the_cache
        (py_repr : pyval -> string) (today : date)
        (now : Z) (up : upstream) (cache : calendar_cache) :
  let today_answer := fst (fst (get_today_events_text py_repr today now up cache)) in
  let listing := fst (fst (list_categories py_repr now up cache)) in
  (data cache <> None ->
   (today_answer = "No events scheduled for today."
    \/ String.prefix "Events for today (" today_answer = true)
   /\ (listing = "No categories found in the calendar."
       \/ String.prefix "Available event categories:" listing = true))
  /\ (forall cause,
         data cache = None -> fst (attempt up) = Raise cause ->
         today_answer
         = "Error retrieving today's events: Failed to fetch calendar data: "
           ++ exn_text cause
         /\ listing
            = "Error listing categories: Failed to fetch calendar data: "
              ++ exn_text cause).
Proof.
  cbv zeta. unfold get_today_events_text, list_categories.
  rewrite get_all_events_eq. cbn [fst]. split.
  - intros Hd. destruct (fetch_with_document now up cache Hd) as [cal ->].
    cbn [bind].
    destruct (events_of_calendar_sorted py_repr cal) as (unsorted & _ & _ & ->).
    unfold today_text, categories_text. split.
    + destruct (today_events (sort_events unsorted) today);
        [left; reflexivity | right; apply prefix_append].
    + destruct (all_categories (sort_events unsorted)); [left | right]; reflexivity.
  - intros cause Hd Ha. rewrite (fetch_without_document now up cache cause Hd Ha).
    cbn [bind exn_text]. split; reflexivity.
Qed.

(** ** The summary survives *)

(** X16. The summary of a record that has a SUMMARY property is always
    its text, also when everything else is lost to the outer handler; a
    record without SUMMARY gets the empty summary on the main path and
    "Unknown Event" only from the outer handler. *)
Theorem summary_is_always_kept
        (py_repr : pyval -> string) (c : Component) (e : NormalizedEvent) :
  extract_event_details py_repr c = Ok e ->
  (forall v, lookup "SUMMARY" (props c) = Some v -> summary e = py_str py_repr v)
  /\ (lookup "SUMMARY" (props c) = None ->
      (summary e = "" /\ exists start finish, e = full_event py_repr c start finish)
      \/ e = Event "Unknown Event" None None None None "" "" "" None []).
Proof.
  intros He. pose proof (extract_event_details_cases py_repr c) as H.
  destruct (date_text _) as [start |] in H;
    [destruct (date_text _) as [finish |] in H |];
    rewrite H in He; injection He as <-;
    cbn [summary full_event minimal_event]; unfold get;
    (split; [intros v -> | intros Hl]); try reflexivity.
  - left. rewrite Hl. split; [reflexivity |]. eauto.
  - right. unfold minimal_event, get. rewrite Hl. reflexivity.
  - right. unfold minimal_event, get. rewrite Hl. reflexivity.
Qed.

(** ** The further statements at work on sample data *)

Lemma date_and_time_texts_have_fixed_shape_witness :
  extract_event_details plain_repr seminar = Ok seminar_event
  /\ four_digit_year seminar "DTSTART"
  /\ is_ymd "2024-03-10" = true /\ is_hm "09:30" = true.
Proof.
  split; [reflexivity |].
  assert (Hy : four_digit_year seminar "DTSTART").
  { intros d H. injection H as <-. cbn. lia. }
  split; [exact Hy |].
  destruct (date_and_time_texts_have_fixed_shape plain_repr seminar seminar_event eq_refl)
    as (H1 & _ & H3 & _).
  split; [exact (H1 Hy _ eq_refl) | exact (H3 _ eq_refl)].
Defined.

Lemma time_only_beside_date_witness :
  extract_event_details plain_repr seminar = Ok seminar_event
  /\ (start_time seminar_event <> None -> start_date seminar_event <> None).
Proof.
  split; [reflexivity |].
  exact (proj1 (time_only_beside_date plain_repr seminar seminar_event eq_refl)).
Defined.

Lemma categories_are_trimmed_and_non_empty_witness :
  extract_event_details plain_repr seminar = Ok seminar_event
  /\ Forall (fun category =>
               nonempty category = true /\ strip category = category
               /\ ~ starts_blank category /\ ~ ends_blank category)
            ["Workshop"; "Lecture"; "Sports"].
Proof.
  split; [reflexivity |].
  exact (categories_are_trimmed_and_non_empty plain_repr seminar seminar_event eq_refl).
Defined.

Lemma geo_text_uses_first_two_characters_witness :
  get seminar "GEO" PNone = PStr "42.34;-71.08"
  /\ (code "4" < 128)%N /\ (code "2" < 128)%N
  /\ guarded (read_geo seminar) None
     = Some (GeoPoint (FDec false 4 0) (FDec false 2 0)).
Proof.
  split; [reflexivity |]. split; [reflexivity |]. split; [reflexivity |].
  exact (geo_text_uses_first_two_characters
           seminar "4" "2" ".34;-71.08" eq_refl eq_refl eq_refl).
Defined.

Lemma requests_are_an_hour_apart_witness :
  get_times initial_cache busy_day = [0; 3600000001; 7200000002]
  /\ StronglySorted apart (get_times initial_cache busy_day).
Proof.
  split; [reflexivity |].
  apply (requests_are_an_hour_apart busy_day).
  repeat constructor.
Defined.

Lemma cached_document_was_served_witness :
  fst (run busy_day) = Cache (Some 7200000002) (Some march)
  /\ exists up, In (7200000002, up) busy_day /\ fst (attempt up) = Ok march.
Proof.
  split; [reflexivity |].
  exact (cached_document_was_served busy_day 7200000002 march eq_refl eq_refl).
Defined.

Lemma window_is_calendar_range_witness :
  printable (Date 2024 3 10)
  /\ String.compare (strftime_ymd (Date 2024 3 9)) (strftime_ymd (Date 2024 3 10))
     = date_compare (Date 2024 3 9) (Date 2024 3 10).
Proof.
  assert (P1 : printable (Date 2024 3 9)) by (unfold printable; cbn; lia).
  assert (P2 : printable (Date 2024 3 13)) by (unfold printable; cbn; lia).
  assert (P3 : printable (Date 2024 3 10)) by (unfold printable; cbn; lia).
  split; [exact P3 |].
  exact (proj1 (window_is_calendar_range
                  (Date 2024 3 9) (Date 2024 3 13) (Date 2024 3 10) seminar_event
                  P1 P2 P3 eq_refl)).
Defined.

Lemma ordered_feed_keeps_its_order_witness :
  exists unsorted,
    collect_events plain_repr (walk ordered_feed) = Ok unsorted
    /\ map summary unsorted = ["Ninth"; "Tenth"; "Undated"]
    /\ events_of_calendar plain_repr ordered_feed = Ok unsorted.
Proof.
  eexists. split; [reflexivity |]. split; [reflexivity |].
  apply (proj1 (ordered_feed_keeps_its_order plain_repr ordered_feed _ eq_refl)).
  repeat constructor.
Defined.

Lemma grouping_by_date_keeps_order_witness :
  events_of_calendar plain_repr march = Ok march_events
  /\ groups_keep_order (guarded (upcoming_events march_events (Date 2024 3 10) 30) []).
Proof.
  split; [reflexivity |].
  apply (proj1 (grouping_by_date_keeps_order
                  plain_repr lower march march_events (Date 2024 3 10) 30 eq_refl)).
  reflexivity.
Defined.

Lemma window_of_one_day_is_today_witness :
  add_days (Date 2024 3 10) 0 = Ok (Date 2024 3 10)
  /\ upcoming_events march_events (Date 2024 3 10) 0
     = Ok (today_events march_events (Date 2024 3 10)).
Proof.
  split; [reflexivity |].
  exact (window_of_one_day_is_today march_events (Date 2024 3 10) 0 eq_refl).
Defined.

Lemma summary_is_always_kept_witness :
  extract_event_details plain_repr seminar = Ok seminar_event
  /\ summary seminar_event = py_str plain_repr (PStr "Seminar").
Proof.
  split; [reflexivity |].
  exact (proj1 (summary_is_always_kept plain_repr seminar seminar_event eq_refl)
               (PStr "Seminar") eq_refl).
Defined.

Example listing_of_march_and_seminar :
  sorted_categories
    (guarded (events_of_calendar plain_repr (calendar_of [seminar; seminar])) [])
  = ["Lecture"; "Sports"; "Workshop"]
  /\ fst (fst (list_categories plain_repr 0 (online (calendar_of [seminar])) initial_cache))
     = "Available event categories:" ++ newline ++ newline
       ++ "1. Lecture" ++ newline ++ "2. Sports" ++ newline ++ "3. Workshop" ++ newline.
Proof. split; reflexivity. Qed.

Example today_text_of_seminar :
  fst (fst (get_today_events_text plain_repr (Date 2024 3 10) 0
              (online (calendar_of [seminar])) initial_cache))
  = "Events for today (2024-03-10):" ++ newline ++ newline
    ++ "1. Seminar at 09:30" ++ newline ++ "   URL: " ++ newline ++ newline.
Proof. reflexivity. Qed.

(** A year below 1000 is printed on fewer than four digits: the text is
    not of the fixed shape, and it compares with other dates as text
    only, so that the year 203 lies in a window that runs from 2024 to
    2034. *)
Example early_year_is_printed_short :
  strftime_ymd (Date 999 5 1) = "999-05-01"
  /\ is_ymd (strftime_ymd (Date 999 5 1)) = false
  /\ String.ltb "2024-03-10" (strftime_ymd (Date 999 5 1)) = true
  /\ add_days (Date 2024 3 10) 3650 = Ok (Date 2034 3 8)
  /\ in_window "2024-03-10" "2034-03-08"
               (Event "Old" (Some (strftime_ymd (Date 203 1 1))) None None None
                      "" "" "" None [])
     = true.
Proof. repeat split. Qed.

(** With such an event in the window the grouped tools find a date that
    [strptime] does not read: the loop ends with its exception, and the
    tool answers with its error text. *)
Example early_year_stops_the_grouping :
  let feed := calendar_of [on_day "Old" (Date 203 1 1); on_day "Tenth" (Date 2024 3 10)] in
  let all_events := guarded (events_of_calendar plain_repr feed) [] in
  let selected := guarded (upcoming_events all_events (Date 2024 3 10) 3650) [] in
  map summary selected = ["Tenth"; "Old"]
  /\ map fst (events_by_date selected) = [Some "2024-03-10"; Some "203-01-01"]
  /\ groups_in_order selected
     = Raise (ValueError "time data '203-01-01' does not match format '%Y-%m-%d'").
Proof. repeat split. Qed.

Example march_is_written_in_two_groups :
  let selected := guarded (upcoming_events march_events (Date 2024 3 10) 3) [] in
  map (fun g => (fst g, map summary (snd g))) (guarded (groups_in_order selected) [])
  = [(Some "2024-03-10", ["Tenth"]); (Some "2024-03-13", ["Thirteenth"])].
Proof. reflexivity. Qed.

(** Whitespace outside ASCII is trimmed like a blank: a no-break space
    in front and an ideographic space behind. *)
Example strip_removes_unicode_whitespace :
  strip (bytes [194; 160]%N ++ " Sports" ++ bytes [227; 128; 128; 9]%N) = "Sports"
  /\ stripped [bytes [194; 160]%N; "Arts" ++ bytes [226; 128; 175]%N] = ["Arts"].
Proof. split; reflexivity. Qed.

Example strptime_reads_what_strftime_prints :
  strptime_ymd "2024-03-10" = Ok (Date 2024 3 10)
  /\ strptime_ymd "2024-3-1" = Ok (Date 2024 3 1)
  /\ strptime_ymd "2023-02-29" = Raise (ValueError "day is out of range for month")
  /\ strptime_ymd "2024-03-100" = Raise (ValueError "unconverted data remains: 0")
  /\ strptime_ymd "0000-01-01" = Raise (ValueError "year 0 is out of range").
Proof. repeat split. Qed.
